(** * inventory-service: the reservation pipeline and the stock handlers

    A shallow embedding of [main.go].  The process talks to three outside
    parties: the PostgreSQL table [inventories], the Kafka broker and the
    process log.  They are gathered in one record, [World], and every
    function of the source that touches one of them becomes a computation
    in the monad [M], which reads the answers of the outside parties from
    an [Env] and threads the [World].

    Go's [int] is kept as [Z]: the source compares such values
    ([quantity >= event.Quantity], [quantity > 0]) and never adds or
    subtracts them; the one subtraction, [quantity - $1], is done by the
    store inside the UPDATE statement. *)

From Stdlib Require Import ZArith PrimFloat.
From stdpp Require Import base tactics option list strings gmap.

Open Scope Z_scope.

(** ** Data of the source *)

(** [type Inventory struct], the body of POST and PUT requests. *)
Module Inventory.
Record t := mk { ProductID : Z; Quantity : Z }.
End Inventory.

(** [type OrderCreatedEvent struct], the value of a message on topic
    "orders". *)
Module OrderCreatedEvent.
Record t := mk {
  OrderID : Z;
  UserID : Z;
  ProductID : Z;
  Quantity : Z;
  Total : float
}.
End OrderCreatedEvent.

(** [type InventoryReservedEvent struct], the value of a message on either
    output topic. *)
Module InventoryReservedEvent.
Record t := mk { OrderID : Z; Status : string; Message : string }.
End InventoryReservedEvent.

(** A row of [inventories]; the key [product_id] is the key of the map
    that holds the rows. *)
Module Row.
Record t := mk { quantity : Z; updated_at : Z }.
End Row.

(** The two writers of [initKafkaWriters], named by their topic. *)
Inductive Topic := inventory_reserved | inventory_failed.

(** ** The outside world *)

(** The lines the consumer loop sends to [log]. *)
Inductive LogLine :=
| KafkaReadError
| JSONUnmarshalError
| ReceivedOrderCreated (event : OrderCreatedEvent.t)
| ProductDoesNotExist (product_id : Z)
| ReservedForOrder (order_id : Z)
| NotEnoughForOrder (order_id : Z).

(** Every call that leaves the process, with the answer it got.  An [err]
    of [true] stands for a returned [err != nil]. *)
Inductive Call :=
| CallSelect (product_id : Z) (res : option Z)
| CallDecrement (amount product_id : Z) (err : bool)
| CallInsert (product_id quantity at_time : Z) (err : bool)
| CallUpdate (quantity at_time : Z) (product_id : option Z) (err : bool)
| CallWrite (topic : Topic) (value : InventoryReservedEvent.t) (err : bool).

Record World := mkWorld {
  inventories : gmap Z Row.t;
  broker : list (Topic * InventoryReservedEvent.t);
  logged : list LogLine;
  calls : list Call
}.

(** What the outside parties answer during one loop iteration or one HTTP
    request: whether the SELECT, the INSERT or UPDATE, and the Kafka write
    come back with an error for a reason of their own (connection, timeout,
    a value the column cannot hold), and what [time.Now()] reads.  A
    statement that comes back with an error has not touched the table, and
    a write that comes back with an error has appended nothing. *)
Record Env := mkEnv {
  query_err : bool;
  exec_err : bool;
  write_err : bool;
  now : Z
}.

Definition healthy (env : Env) : Prop :=
  query_err env = false ∧ exec_err env = false ∧ write_err env = false.

Definition M (A : Type) : Type := Env → World → A * World.

#[global] Instance M_ret : MRet M := λ A a _ w, (a, w).

#[global] Instance M_bind : MBind M :=
  λ A B f m env w, f (m env w).1 env (m env w).2.

Definition with_inventories (f : gmap Z Row.t → gmap Z Row.t) (w : World) : World :=
  mkWorld (f (inventories w)) (broker w) (logged w) (calls w).

Definition with_record (t : Topic) (v : InventoryReservedEvent.t) (w : World) : World :=
  mkWorld (inventories w) (broker w ++ [(t, v)]) (logged w) (calls w).

Definition with_line (l : LogLine) (w : World) : World :=
  mkWorld (inventories w) (broker w) (logged w ++ [l]) (calls w).

Definition with_call (c : Call) (w : World) : World :=
  mkWorld (inventories w) (broker w) (logged w) (calls w ++ [c]).

(** [log.Println] and [log.Printf]. *)
Definition Println (l : LogLine) : M unit := λ _ w, (tt, with_line l w).

(** ** The statements sent to the store *)

(** [SELECT quantity FROM inventories WHERE product_id = $1] followed by
    [Scan(&quantity)]: [None] is [err != nil], which is what a missing row
    gives as well as a failed query. *)
Definition selectQuantity (product_id : Z) : M (option Z) := λ env w,
  let res := if query_err env then None
             else Row.quantity <$> inventories w !! product_id in
  (res, with_call (CallSelect product_id res) w).

Definition decrement (amount : Z) (r : Row.t) : Row.t :=
  Row.mk (Row.quantity r - amount) (Row.updated_at r).

(** [UPDATE inventories SET quantity = quantity - $1 WHERE product_id = $2]:
    no condition on the quantity, and no error when no row matches. *)
Definition updateDecrement (amount product_id : Z) : M bool := λ env w,
  let err := exec_err env in
  (err, with_call (CallDecrement amount product_id err)
          (if err then w else with_inventories (alter (decrement amount) product_id) w)).

(** [writer.WriteMessages(ctx, kafka.Message{Value: data})] on the writer
    of topic [t]; [data] is kept as the event that [json.Marshal] was
    given. *)
Definition WriteMessages (t : Topic) (v : InventoryReservedEvent.t) : M bool := λ env w,
  let err := write_err env in
  (err, with_call (CallWrite t v err) (if err then w else with_record t v w)).

(** ** Producers *)

Definition publishInventoryReserved (orderID : Z) (message : string) : M unit :=
  let event := InventoryReservedEvent.mk orderID "RESERVED" message in
  _ ← WriteMessages inventory_reserved event;
  mret tt.

Definition publishInventoryFailed (orderID : Z) (message : string) : M unit :=
  let event := InventoryReservedEvent.mk orderID "FAILED" message in
  _ ← WriteMessages inventory_failed event;
  mret tt.

(** ** The consumer loop *)

(** What [r.ReadMessage] hands to one iteration: an error, or a message
    whose value is kept as what [json.Unmarshal] makes of it. *)
Inductive Payload := Malformed | Encodes (event : OrderCreatedEvent.t).

Inductive Delivery := ReadError | Message (value : Payload).

Definition Unmarshal (value : Payload) : option OrderCreatedEvent.t :=
  match value with
  | Malformed => None
  | Encodes event => Some event
  end.

(** Lines 139 to 153: the comparison on the quantity that was read, and
    the UPDATE in the branch that passes it. *)
Definition reserve (event : OrderCreatedEvent.t) (quantity : Z) : M unit :=
  if quantity >=? OrderCreatedEvent.Quantity event then
    err ← updateDecrement (OrderCreatedEvent.Quantity event)
                          (OrderCreatedEvent.ProductID event);
    if err : bool then
      publishInventoryFailed (OrderCreatedEvent.OrderID event) "Cannot reserve inventory"
    else
      Println (ReservedForOrder (OrderCreatedEvent.OrderID event));;
      publishInventoryReserved (OrderCreatedEvent.OrderID event) "Reserved successfully"
  else
    Println (NotEnoughForOrder (OrderCreatedEvent.OrderID event));;
    publishInventoryFailed (OrderCreatedEvent.OrderID event) "Not enough stock".

(** Lines 126 to 154: what one iteration does with a decoded event. *)
Definition handleOrder (event : OrderCreatedEvent.t) : M unit :=
  Println (ReceivedOrderCreated event);;
  res ← selectQuantity (OrderCreatedEvent.ProductID event);
  match res with
  | None =>
      Println (ProductDoesNotExist (OrderCreatedEvent.ProductID event));;
      publishInventoryFailed (OrderCreatedEvent.OrderID event) "Product not found"
  | Some quantity => reserve event quantity
  end.

(** The body of the [for] loop of [consumeOrderCreated]. *)
Definition iteration (d : Delivery) : M unit :=
  match d with
  | ReadError => Println KafkaReadError
  | Message value =>
      match Unmarshal value with
      | None => Println JSONUnmarshalError
      | Some event => handleOrder event
      end
  end.

(** [consumeOrderCreated] on a finite prefix of what the reader delivers;
    each delivery comes with the answers of the outside parties during its
    iteration.  The loop of the source has no exit. *)
Fixpoint consumeOrderCreated (ds : list (Delivery * Env)) (w : World) : World :=
  match ds with
  | [] => w
  | (d, env) :: ds' => consumeOrderCreated ds' (iteration d env w).2
  end.

(** ** Two store round trips

    One iteration talks to the store twice: the SELECT, then the UPDATE.
    [step] cuts [handleOrder] between the two, so that iterations of
    several consumers of the group can be run against one table in any
    order of their round trips. *)
Inductive Pending :=
| BeforeSelect (event : OrderCreatedEvent.t)
| BeforeCompare (event : OrderCreatedEvent.t) (quantity : Z)
| Finished.

Definition step (p : Pending) : M Pending :=
  match p with
  | BeforeSelect event =>
      Println (ReceivedOrderCreated event);;
      res ← selectQuantity (OrderCreatedEvent.ProductID event);
      match res with
      | None =>
          Println (ProductDoesNotExist (OrderCreatedEvent.ProductID event));;
          publishInventoryFailed (OrderCreatedEvent.OrderID event) "Product not found";;
          mret Finished
      | Some quantity => mret (BeforeCompare event quantity)
      end
  | BeforeCompare event quantity => reserve event quantity;; mret Finished
  | Finished => mret Finished
  end.

(** Runs the consumers [ps] as the schedule says: each entry names the
    consumer that makes its next round trip. *)
Fixpoint interleave (schedule : list nat) (env : Env) (ps : list Pending) (w : World)
  : list Pending * World :=
  match schedule with
  | [] => (ps, w)
  | i :: rest =>
      match ps !! i with
      | None => interleave rest env ps w
      | Some p => interleave rest env (<[i := (step p env w).1]> ps) (step p env w).2
      end
  end.

(** ** HTTP handlers *)

Definition StatusOK : Z := 200.
Definition StatusCreated : Z := 201.
Definition StatusBadRequest : Z := 400.
Definition StatusNotFound : Z := 404.

(** What a handler reads of a request: the path variable [product_id] of
    [mux.Vars], and the body as [json.NewDecoder(r.Body).Decode] reads it
    into an [Inventory], [None] when it reads nothing of it. *)
Record Request := mkRequest {
  product_id_var : string;
  decoded_body : option Inventory.t
}.

Inductive Body :=
| Empty
| Text (s : string)
| AvailableQuantity (available : bool) (quantity : Z).

Record Response := mkResponse { status : Z; body : Body }.

(** [http.Error(w, msg, code)]. *)
Definition Error (msg : string) (code : Z) : Response := mkResponse code (Text msg).

(** [var inv Inventory; Decode(&inv)] with the error dropped: a body that
    cannot be read leaves the zero value. *)
Definition Decode (b : option Inventory.t) : Inventory.t :=
  default (Inventory.mk 0 0) b.

(** [time.Now()]. *)
Definition Now : M Z := λ env w, (now env, w).

(** Modelled from the spec: the schema of [inventories] is not part of the
    sources; the table is "keyed by productID", so an INSERT whose key is
    already there comes back with an error.
    [INSERT INTO inventories (product_id, quantity, updated_at) VALUES ($1, $2, $3)]. *)
Definition insertInventory (product_id quantity at_time : Z) : M bool := λ env w,
  let err := exec_err env || bool_decide (is_Some (inventories w !! product_id)) in
  (err, with_call (CallInsert product_id quantity at_time err)
          (if err then w
           else with_inventories (insert product_id (Row.mk quantity at_time)) w)).

Section Handlers.

(** The handlers pass the path variable to the store as text; how the store
    reads a text as a [product_id], and which texts it refuses, is the
    store's business. *)
Variable int_of_text : string → option Z.

Definition selectQuantityText (productID : string) : M (option Z) :=
  match int_of_text productID with
  | None => mret None
  | Some product_id => selectQuantity product_id
  end.

(** [UPDATE inventories SET quantity = $1, updated_at = $2 WHERE product_id = $3]. *)
Definition updateQuantity (quantity at_time : Z) (productID : string) : M bool := λ env w,
  let err := exec_err env || bool_decide (int_of_text productID = None) in
  (err, with_call (CallUpdate quantity at_time (int_of_text productID) err)
          (match int_of_text productID with
           | Some product_id =>
               if err then w
               else with_inventories (alter (λ _, Row.mk quantity at_time) product_id) w
           | None => w
           end)).

Definition getInventory (r : Request) : M Response :=
  let productID := product_id_var r in
  res ← selectQuantityText productID;
  match res with
  | None => mret (Error "Product not found" StatusNotFound)
  | Some quantity =>
      mret (mkResponse StatusOK (AvailableQuantity (quantity >? 0) quantity))
  end.

Definition createInventory (r : Request) : M Response :=
  let inv := Decode (decoded_body r) in
  t ← Now;
  err ← insertInventory (Inventory.ProductID inv) (Inventory.Quantity inv) t;
  if err : bool then mret (Error "Insert failed" StatusBadRequest)
  else mret (mkResponse StatusCreated Empty).

Definition updateInventory (r : Request) : M Response :=
  let productID := product_id_var r in
  let inv := Decode (decoded_body r) in
  t ← Now;
  err ← updateQuantity (Inventory.Quantity inv) t productID;
  if err : bool then mret (Error "Update failed" StatusBadRequest)
  else mret (mkResponse StatusOK Empty).

(** What [main] starts: the consumer loop in the background and the three
    routes, all against the one table.  An operation is one loop iteration
    or one request. *)
Inductive Operation :=
| Consume (d : Delivery)
| GET (r : Request)
| POST (r : Request)
| PUT (r : Request).

Definition perform (op : Operation) : M unit :=
  match op with
  | Consume d => iteration d
  | GET r => getInventory r;; mret tt
  | POST r => createInventory r;; mret tt
  | PUT r => updateInventory r;; mret tt
  end.

(** A run in which no operation starts before the one before it is done. *)
Fixpoint perform_all (ops : list (Operation * Env)) (w : World) : World :=
  match ops with
  | [] => w
  | (op, env) :: ops' => perform_all ops' (perform op env w).2
  end.

End Handlers.

(** A store that reads a text as a [product_id] when it is a plain decimal
    numeral; used where a statement needs one store to run on. *)
Definition digit (a : Ascii.ascii) : option Z :=
  let n := Z.of_nat (Ascii.nat_of_ascii a) in
  if (48 <=? n) && (n <=? 57) then Some (n - 48) else None.

Fixpoint decimal_from (acc : Z) (s : string) : option Z :=
  match s with
  | EmptyString => Some acc
  | String a s' =>
      match digit a with
      | None => None
      | Some d => decimal_from (10 * acc + d) s'
      end
  end.

Definition decimal (s : string) : option Z :=
  match s with
  | EmptyString => None
  | _ => decimal_from 0 s
  end.

(** ** Reading a run *)

(** What a run from [w] to [w'] added. *)
Definition calls_since (w w' : World) : list Call :=
  drop (length (calls w)) (calls w').

Definition published_since (w w' : World) : list (Topic * InventoryReservedEvent.t) :=
  drop (length (broker w)) (broker w').

(** What the SELECT of an iteration answers. *)
Definition select_result (env : Env) (w : World) (product_id : Z) : option Z :=
  if query_err env then None else Row.quantity <$> inventories w !! product_id.

(** The outcome events that were handed to a writer, whatever came of it. *)
Definition writes (cs : list Call) : list (Topic * InventoryReservedEvent.t) :=
  omap (λ c, match c with CallWrite t v _ => Some (t, v) | _ => None end) cs.

(** The decrements that went through, as amount and product. *)
Definition applied_decrements (cs : list Call) : list (Z * Z) :=
  omap (λ c, match c with
             | CallDecrement amount product_id false => Some (amount, product_id)
             | _ => None
             end) cs.

(** The UPDATE of [event] went through. *)
Definition decrement_applied (event : OrderCreatedEvent.t) (cs : list Call) : Prop :=
  CallDecrement (OrderCreatedEvent.Quantity event)
                (OrderCreatedEvent.ProductID event) false ∈ cs.

(** Every row holds a quantity that is not negative. *)
Definition quantities_nonneg (db : gmap Z Row.t) : Prop :=
  ∀ product_id r, db !! product_id = Some r → 0 ≤ Row.quantity r.

Definition empty_world : World := mkWorld ∅ [] [] [].

Definition stocked (product_id quantity : Z) : World :=
  mkWorld {[ product_id := Row.mk quantity 0 ]} [] [] [].

Definition no_faults : Env := mkEnv false false false 0.

Definition order (order_id product_id quantity : Z) : OrderCreatedEvent.t :=
  OrderCreatedEvent.mk order_id 1 product_id quantity 0%float.

Definition RESERVED (order_id : Z) (message : string) : InventoryReservedEvent.t :=
  InventoryReservedEvent.mk order_id "RESERVED" message.

Definition FAILED (order_id : Z) (message : string) : InventoryReservedEvent.t :=
  InventoryReservedEvent.mk order_id "FAILED" message.

(** ** cors.go *)

Definition StatusNoContent : Z := 204.

Definition MethodOptions : string := "OPTIONS".

(** [enableCORS(w)]: three [Set]s on the header map of the response.  The
    map holds one value per key, which is what [Set] leaves. *)
Definition enableCORS (h : gmap string string) : gmap string string :=
  <["Access-Control-Allow-Headers" := "Content-Type"]>
    (<["Access-Control-Allow-Methods" := "GET, POST, PUT, OPTIONS"]>
       (<["Access-Control-Allow-Origin" := "*"]> h)).

(** [corsMiddleware(next)] on a request of method [method], the header map
    of the response being [h] when the request comes in.  The handlers of
    this service set no header of their own. *)
Definition corsMiddleware (next : Request → M Response) (method : string)
    (h : gmap string string) (r : Request) : M (gmap string string * Response) :=
  if bool_decide (method = MethodOptions) then
    mret (enableCORS h, mkResponse StatusNoContent Empty)
  else
    resp ← next r;
    mret (enableCORS h, resp).


(** ** Reading a longer run *)

(** The events of the deliveries that the loop does not skip. *)
Definition decoded_events (ds : list (Delivery * Env)) : list OrderCreatedEvent.t :=
  omap (λ de : Delivery * Env,
          match de.1 with
          | ReadError => None
          | Message value => Unmarshal value
          end) ds.

(** The outcome events whose write came back without an error. *)
Definition accepted_writes (cs : list Call) : list (Topic * InventoryReservedEvent.t) :=
  omap (λ c, match c with CallWrite t v false => Some (t, v) | _ => None end) cs.

(** What the decrements that went through took from one product. *)
Definition decremented_by (product_id : Z) (cs : list Call) : Z :=
  foldr (λ ap acc, if bool_decide (ap.2 = product_id) then ap.1 + acc else acc)
        0 (applied_decrements cs).

(** An outcome is on the topic of its status. *)
Definition well_routed (p : Topic * InventoryReservedEvent.t) : Prop :=
  match p.1 with
  | inventory_reserved => InventoryReservedEvent.Status p.2 = "RESERVED"
  | inventory_failed => InventoryReservedEvent.Status p.2 = "FAILED"
  end.

(** The messages the loop gives to its outcomes. *)
Definition outcome_messages : list string :=
  ["Reserved successfully"; "Not enough stock"; "Product not found";
   "Cannot reserve inventory"].

(** The two rejections of an order: the SELECT went through and found
    less than the order asks for, or the table has no row for the product.
    The text is the reason the rejection is to carry. *)
Inductive Rejected (event : OrderCreatedEvent.t) (env : Env) (w : World) : string → Prop :=
| InsufficientStock r :
    query_err env = false →
    inventories w !! OrderCreatedEvent.ProductID event = Some r →
    Row.quantity r < OrderCreatedEvent.Quantity event →
    Rejected event env w "Not enough stock"
| UnknownProduct :
    inventories w !! OrderCreatedEvent.ProductID event = None →
    Rejected event env w "Product not found".

(** The two ways a store call of an iteration comes back with an error:
    the SELECT does, or the SELECT went through, the quantity suffices and
    the UPDATE does.  The text is the message the source gives to each. *)
Inductive StoreFailure (event : OrderCreatedEvent.t) (env : Env) (w : World) : string → Prop :=
| SelectFails :
    query_err env = true →
    StoreFailure event env w "Product not found"
| UpdateFails r :
    query_err env = false →
    inventories w !! OrderCreatedEvent.ProductID event = Some r →
    OrderCreatedEvent.Quantity event ≤ Row.quantity r →
    exec_err env = true →
    StoreFailure event env w "Cannot reserve inventory".

(** The requests whose body carries a quantity that is not negative; the
    other operations carry no quantity to store. *)
Definition quantity_nonneg (op : Operation) : Prop :=
  match op with
  | POST r | PUT r => 0 ≤ Inventory.Quantity (Decode (decoded_body r))
  | Consume _ | GET _ => True
  end.

(** ** The four ways through [handleOrder] *)

Ltac run_M :=
  unfold handleOrder, reserve, publishInventoryFailed, publishInventoryReserved,
    WriteMessages, updateDecrement, selectQuantity, Println, Now,
    mbind, M_bind, mret, M_ret, with_call, with_line, with_record, with_inventories;
  cbn [fst snd inventories broker logged calls].

Ltac same_world :=
  unfold RESERVED, FAILED; cbn [fst snd inventories broker logged calls];
  rewrite <- ?app_assoc, ?app_nil_r; reflexivity.

Lemma handleOrder_not_found event env w :
  select_result env w (OrderCreatedEvent.ProductID event) = None →
  handleOrder event env w =
  (tt, mkWorld (inventories w)
         (broker w ++ (if write_err env then []
                       else [(inventory_failed,
                              FAILED (OrderCreatedEvent.OrderID event) "Product not found")]))
         (logged w ++ [ReceivedOrderCreated event;
                       ProductDoesNotExist (OrderCreatedEvent.ProductID event)])
         (calls w ++ [CallSelect (OrderCreatedEvent.ProductID event) None;
                      CallWrite inventory_failed
                        (FAILED (OrderCreatedEvent.OrderID event) "Product not found")
                        (write_err env)])).
Proof.
  unfold select_result. intros Hsel. run_M.
  rewrite Hsel.
  destruct (write_err env); f_equal; same_world.
Qed.

Lemma handleOrder_not_enough event env w quantity :
  select_result env w (OrderCreatedEvent.ProductID event) = Some quantity →
  quantity < OrderCreatedEvent.Quantity event →
  handleOrder event env w =
  (tt, mkWorld (inventories w)
         (broker w ++ (if write_err env then []
                       else [(inventory_failed,
                              FAILED (OrderCreatedEvent.OrderID event) "Not enough stock")]))
         (logged w ++ [ReceivedOrderCreated event;
                       NotEnoughForOrder (OrderCreatedEvent.OrderID event)])
         (calls w ++ [CallSelect (OrderCreatedEvent.ProductID event) (Some quantity);
                      CallWrite inventory_failed
                        (FAILED (OrderCreatedEvent.OrderID event) "Not enough stock")
                        (write_err env)])).
Proof.
  unfold select_result. intros Hsel Hlt. run_M.
  rewrite Hsel.
  replace (quantity >=? OrderCreatedEvent.Quantity event) with false
    by (symmetry; rewrite Z.geb_leb; apply Z.leb_gt; exact Hlt).
  destruct (write_err env); f_equal; same_world.
Qed.

Lemma handleOrder_update_fails event env w quantity :
  select_result env w (OrderCreatedEvent.ProductID event) = Some quantity →
  OrderCreatedEvent.Quantity event ≤ quantity →
  exec_err env = true →
  handleOrder event env w =
  (tt, mkWorld (inventories w)
         (broker w ++ (if write_err env then []
                       else [(inventory_failed,
                              FAILED (OrderCreatedEvent.OrderID event)
                                "Cannot reserve inventory")]))
         (logged w ++ [ReceivedOrderCreated event])
         (calls w ++ [CallSelect (OrderCreatedEvent.ProductID event) (Some quantity);
                      CallDecrement (OrderCreatedEvent.Quantity event)
                        (OrderCreatedEvent.ProductID event) true;
                      CallWrite inventory_failed
                        (FAILED (OrderCreatedEvent.OrderID event) "Cannot reserve inventory")
                        (write_err env)])).
Proof.
  unfold select_result. intros Hsel Hle Herr. run_M.
  rewrite Hsel.
  replace (quantity >=? OrderCreatedEvent.Quantity event) with true
    by (symmetry; rewrite Z.geb_leb; apply Z.leb_le; exact Hle).
  rewrite Herr.
  destruct (write_err env); f_equal; same_world.
Qed.

Lemma handleOrder_reserved event env w quantity :
  select_result env w (OrderCreatedEvent.ProductID event) = Some quantity →
  OrderCreatedEvent.Quantity event ≤ quantity →
  exec_err env = false →
  handleOrder event env w =
  (tt, mkWorld (alter (decrement (OrderCreatedEvent.Quantity event))
                  (OrderCreatedEvent.ProductID event) (inventories w))
         (broker w ++ (if write_err env then []
                       else [(inventory_reserved,
                              RESERVED (OrderCreatedEvent.OrderID event)
                                "Reserved successfully")]))
         (logged w ++ [ReceivedOrderCreated event;
                       ReservedForOrder (OrderCreatedEvent.OrderID event)])
         (calls w ++ [CallSelect (OrderCreatedEvent.ProductID event) (Some quantity);
                      CallDecrement (OrderCreatedEvent.Quantity event)
                        (OrderCreatedEvent.ProductID event) false;
                      CallWrite inventory_reserved
                        (RESERVED (OrderCreatedEvent.OrderID event) "Reserved successfully")
                        (write_err env)])).
Proof.
  unfold select_result. intros Hsel Hle Herr. run_M.
  rewrite Hsel.
  replace (quantity >=? OrderCreatedEvent.Quantity event) with true
    by (symmetry; rewrite Z.geb_leb; apply Z.leb_le; exact Hle).
  rewrite Herr.
  destruct (write_err env); f_equal; same_world.
Qed.

Lemma handleOrder_cases event env w :
  select_result env w (OrderCreatedEvent.ProductID event) = None
  ∨ (∃ quantity,
       select_result env w (OrderCreatedEvent.ProductID event) = Some quantity
       ∧ quantity < OrderCreatedEvent.Quantity event)
  ∨ (∃ quantity,
       select_result env w (OrderCreatedEvent.ProductID event) = Some quantity
       ∧ OrderCreatedEvent.Quantity event ≤ quantity ∧ exec_err env = true)
  ∨ (∃ quantity,
       select_result env w (OrderCreatedEvent.ProductID event) = Some quantity
       ∧ OrderCreatedEvent.Quantity event ≤ quantity ∧ exec_err env = false).
Proof.
  destruct (select_result env w (OrderCreatedEvent.ProductID event)) as [quantity|];
    [|by left].
  right.
  destruct (Z_lt_le_dec quantity (OrderCreatedEvent.Quantity event)) as [Hlt|Hle].
  - left. by exists quantity.
  - right. destruct (exec_err env); [left|right]; by exists quantity.
Qed.

Lemma calls_since_app w i b l cs :
  calls_since w (mkWorld i b l (calls w ++ cs)) = cs.
Proof. unfold calls_since. cbn [calls]. apply drop_app_length. Qed.

Lemma published_since_app w i l c bs :
  published_since w (mkWorld i (broker w ++ bs) l c) = bs.
Proof. unfold published_since. cbn [broker]. apply drop_app_length. Qed.

Ltac since := cbn [fst snd]; rewrite ?calls_since_app, ?published_since_app.

Ltac absent :=
  let H := fresh in
  intros H; repeat (apply elem_of_cons in H as [H|H]; [discriminate H|]);
  by apply elem_of_nil in H.

Ltac evaluate_list :=
  match goal with
  | |- _ ∈ ?l =>
      let l' := eval vm_compute in l in
      replace l with l' by (vm_compute; reflexivity)
  end.

Ltac present := solve [rewrite !elem_of_cons; auto 6].

Ltac settle :=
  first
    [ done
    | by auto
    | absent
    | present
    | let H := fresh in intros H; exfalso; revert H; absent
    | let H := fresh in intros H; exfalso; apply H; present
    | intros; present ].

Lemma iteration_decoded event env w :
  iteration (Message (Encodes event)) env w = handleOrder event env w.
Proof. reflexivity. Qed.

(** Cutting the iteration at its two round trips loses nothing: the two
    steps in a row are [handleOrder]. *)
Lemma handleOrder_steps event env w :
  (handleOrder event env w).2
  = (interleave [0; 0]%nat env [BeforeSelect event] w).2.
Proof.
  unfold interleave, step. cbn [lookup list_lookup list_insert insert].
  run_M.
  destruct (query_err env);
    [reflexivity|].
  destruct (inventories w !! OrderCreatedEvent.ProductID event) as [r|];
    reflexivity.
Qed.

(** ** The claims *)

(** C1, as the code has it.  For every decoded event, one iteration hands
    exactly one outcome event to a writer; it carries the order's id, goes
    to the topic of its status, and its status is RESERVED if and only if
    the UPDATE of that event went through, in which case the row of the
    product was decremented by the order's quantity, and otherwise the
    table is as it was.  The outcome is on the broker exactly once when the
    write comes back without an error, and not at all when it comes back
    with one: the error is dropped and nothing is written again. *)
Theorem handleOrder_one_outcome event env w :
  let w' := (iteration (Message (Encodes event)) env w).2 in
  ∃ t o,
    writes (calls_since w w') = [(t, o)]
    ∧ InventoryReservedEvent.OrderID o = OrderCreatedEvent.OrderID event
    ∧ (InventoryReservedEvent.Status o = "RESERVED"
       ∨ InventoryReservedEvent.Status o = "FAILED")
    ∧ (t = inventory_reserved ↔ InventoryReservedEvent.Status o = "RESERVED")
    ∧ (InventoryReservedEvent.Status o = "RESERVED"
       ↔ decrement_applied event (calls_since w w'))
    ∧ (decrement_applied event (calls_since w w') →
       inventories w' = alter (decrement (OrderCreatedEvent.Quantity event))
                          (OrderCreatedEvent.ProductID event) (inventories w))
    ∧ (¬ decrement_applied event (calls_since w w') →
       inventories w' = inventories w)
    ∧ published_since w w' = if write_err env then [] else [(t, o)].
Proof.
  intros w'. subst w'. rewrite iteration_decoded. unfold decrement_applied.
  destruct (handleOrder_cases event env w)
    as [Hsel|[(quantity & Hsel & Hq)|[(quantity & Hsel & Hq & Herr)
                                     |(quantity & Hsel & Hq & Herr)]]].
  - rewrite (handleOrder_not_found _ _ _ Hsel). since.
    eexists _, _. split; [reflexivity|]. cbn.
    repeat split; settle.
  - rewrite (handleOrder_not_enough _ _ _ _ Hsel Hq). since.
    eexists _, _. split; [reflexivity|]. cbn.
    repeat split; settle.
  - rewrite (handleOrder_update_fails _ _ _ _ Hsel Hq Herr). since.
    eexists _, _. split; [reflexivity|]. cbn.
    repeat split; settle.
  - rewrite (handleOrder_reserved _ _ _ _ Hsel Hq Herr). since.
    eexists _, _. split; [reflexivity|]. cbn.
    repeat split; settle.
Qed.

(** C1 fails as stated: when the Kafka write comes back with an error, the
    row of product 42 goes from 10 to 5 and no outcome event for order 7
    is on the broker. *)
Lemma decrement_without_outcome :
  let env := mkEnv false false true 0 in
  let w := stocked 42 10 in
  let w' := (iteration (Message (Encodes (order 7 42 5))) env w).2 in
  decrement_applied (order 7 42 5) (calls_since w w')
  ∧ inventories w' !! 42 = Some (Row.mk 5 0)
  ∧ published_since w w' = []
  ∧ ¬ (∃ t o, published_since w w' = [(t, o)]
              ∧ InventoryReservedEvent.OrderID o = 7
              ∧ (InventoryReservedEvent.Status o = "RESERVED"
                 ↔ decrement_applied (order 7 42 5) (calls_since w w'))).
Proof.
  cbv zeta. split; [|split; [|split]].
  - unfold decrement_applied. evaluate_list. present.
  - vm_compute. reflexivity.
  - vm_compute. reflexivity.
  - intros (t & o & Hpub & _). vm_compute in Hpub. discriminate Hpub.
Qed.

Lemma select_result_Some env w product_id quantity :
  select_result env w product_id = Some quantity ↔
  query_err env = false
  ∧ ∃ r, inventories w !! product_id = Some r ∧ Row.quantity r = quantity.
Proof.
  unfold select_result. destruct (query_err env).
  - split; [done|]. by intros [? _].
  - destruct (inventories w !! product_id) as [r|]; cbn.
    + split.
      * intros [= <-]. eauto.
      * intros [_ (r' & [= <-] & <-)]. reflexivity.
    + split; [done|]. by intros [_ (r' & ? & _)].
Qed.

Lemma decrement_applied_inv event env w :
  decrement_applied event (calls_since w (handleOrder event env w).2) →
  ∃ quantity,
    select_result env w (OrderCreatedEvent.ProductID event) = Some quantity
    ∧ OrderCreatedEvent.Quantity event ≤ quantity
    ∧ exec_err env = false.
Proof.
  unfold decrement_applied.
  destruct (handleOrder_cases event env w)
    as [Hsel|[(quantity & Hsel & Hq)|[(quantity & Hsel & Hq & Herr)
                                     |(quantity & Hsel & Hq & Herr)]]].
  - rewrite (handleOrder_not_found _ _ _ Hsel). since. absent.
  - rewrite (handleOrder_not_enough _ _ _ _ Hsel Hq). since. absent.
  - rewrite (handleOrder_update_fails _ _ _ _ Hsel Hq Herr). since. absent.
  - intros _. by exists quantity.
Qed.

(** C2 fails as stated: two consumers, one unit of product 1, each order
    asks for one.  Both read quantity 1 before either writes; both UPDATEs
    go through, both orders are RESERVED and the row ends at -1. *)
Lemma two_consumers_one_unit_both_reserved :
  let r := interleave [0; 1; 0; 1]%nat no_faults
             [BeforeSelect (order 7 1 1); BeforeSelect (order 8 1 1)] (stocked 1 1) in
  r.1 = [Finished; Finished]
  ∧ calls r.2 =
      [CallSelect 1 (Some 1); CallSelect 1 (Some 1);
       CallDecrement 1 1 false;
       CallWrite inventory_reserved (RESERVED 7 "Reserved successfully") false;
       CallDecrement 1 1 false;
       CallWrite inventory_reserved (RESERVED 8 "Reserved successfully") false]
  ∧ broker r.2 = [(inventory_reserved, RESERVED 7 "Reserved successfully");
                  (inventory_reserved, RESERVED 8 "Reserved successfully")]
  ∧ inventories r.2 !! 1 = Some (Row.mk (-1) 0).
Proof. cbv zeta. repeat split; vm_compute; reflexivity. Qed.

(** C2, as the code has it.  The stock mutation takes two round trips: a
    SELECT of the quantity, then, when the quantity read is at least the
    order's amount, an UPDATE that subtracts the amount whatever the row
    then holds.  When two iterations run one after the other, as in the
    one consumer loop of a process, two reservations whose amounts add up
    to more than the quantity of the product (two orders of one unit
    against one unit left) do not both go through. *)
Theorem sequential_reservations_exclusive event1 event2 env1 env2 w r :
  OrderCreatedEvent.ProductID event1 = OrderCreatedEvent.ProductID event2 →
  inventories w !! OrderCreatedEvent.ProductID event1 = Some r →
  Row.quantity r < OrderCreatedEvent.Quantity event1 + OrderCreatedEvent.Quantity event2 →
  let w1 := (iteration (Message (Encodes event1)) env1 w).2 in
  let w2 := (iteration (Message (Encodes event2)) env2 w1).2 in
  (∀ amount, exec_err env1 = false →
     inventories (updateDecrement amount (OrderCreatedEvent.ProductID event1) env1 w).2
       !! OrderCreatedEvent.ProductID event1
     = Some (Row.mk (Row.quantity r - amount) (Row.updated_at r)))
  ∧ (decrement_applied event1 (calls_since w w1) →
   calls_since w w1 =
     [CallSelect (OrderCreatedEvent.ProductID event1) (Some (Row.quantity r));
      CallDecrement (OrderCreatedEvent.Quantity event1)
        (OrderCreatedEvent.ProductID event1) false;
      CallWrite inventory_reserved
        (RESERVED (OrderCreatedEvent.OrderID event1) "Reserved successfully")
        (write_err env1)])
  ∧ ¬ (decrement_applied event1 (calls_since w w1)
       ∧ decrement_applied event2 (calls_since w1 w2)).
Proof.
  intros Hpid Hrow Hsum w1 w2. subst w1 w2. rewrite !iteration_decoded.
  assert (Hfirst : decrement_applied event1
                     (calls_since w (handleOrder event1 env1 w).2) →
                   select_result env1 w (OrderCreatedEvent.ProductID event1)
                     = Some (Row.quantity r)
                   ∧ OrderCreatedEvent.Quantity event1 ≤ Row.quantity r
                   ∧ exec_err env1 = false).
  { intros (quantity & Hsel & Hq & Herr)%decrement_applied_inv.
    pose proof Hsel as Hsel'.
    apply select_result_Some in Hsel' as [_ (r' & Hr' & <-)].
    rewrite Hrow in Hr'. injection Hr' as <-. done. }
  split; [|split].
  - intros amount Herr. unfold updateDecrement. cbn [snd]. rewrite Herr.
    unfold with_call, with_inventories. cbn [inventories].
    by rewrite lookup_alter_eq, Hrow.
  - intros (Hsel & Hq & Herr)%Hfirst.
    rewrite (handleOrder_reserved _ _ _ _ Hsel Hq Herr). since. reflexivity.
  - intros [H1 H2]. destruct (Hfirst H1) as (Hsel & Hq & Herr).
    revert H2. rewrite (handleOrder_reserved _ _ _ _ Hsel Hq Herr). cbn [snd].
    intros (quantity & Hsel2 & Hq2 & _)%decrement_applied_inv.
    apply select_result_Some in Hsel2 as [_ (r' & Hr' & <-)].
    cbn [inventories] in Hr'. rewrite <- Hpid in Hr'.
    rewrite lookup_alter_eq, Hrow in Hr'. injection Hr' as <-.
    cbn [decrement Row.quantity] in Hq2. lia.
Qed.

Lemma sequential_reservations_exclusive_witness :
  let w := stocked 1 1 in
  let w1 := (iteration (Message (Encodes (order 7 1 1))) no_faults w).2 in
  let w2 := (iteration (Message (Encodes (order 8 1 1))) no_faults w1).2 in
  (∀ amount, exec_err no_faults = false →
     inventories (updateDecrement amount 1 no_faults w).2 !! 1
     = Some (Row.mk (1 - amount) 0))
  ∧ (decrement_applied (order 7 1 1) (calls_since w w1) →
   calls_since w w1 =
     [CallSelect 1 (Some 1); CallDecrement 1 1 false;
      CallWrite inventory_reserved (RESERVED 7 "Reserved successfully") false])
  ∧ ¬ (decrement_applied (order 7 1 1) (calls_since w w1)
       ∧ decrement_applied (order 8 1 1) (calls_since w1 w2)).
Proof.
  apply (sequential_reservations_exclusive (order 7 1 1) (order 8 1 1)
           no_faults no_faults (stocked 1 1) (Row.mk 1 0)).
  - reflexivity.
  - vm_compute. reflexivity.
  - vm_compute. reflexivity.
Defined.

Lemma select_result_found env w product_id r :
  query_err env = false →
  inventories w !! product_id = Some r →
  select_result env w product_id = Some (Row.quantity r).
Proof. intros Hq Hr. apply select_result_Some. eauto. Qed.

Lemma select_result_unknown env w product_id :
  inventories w !! product_id = None →
  select_result env w product_id = None.
Proof. unfold select_result. intros ->. by destruct (query_err env). Qed.

(** C3.  When the product of an order has a row whose quantity is at least
    the order's quantity, and the store and the broker answer, the
    iteration publishes a RESERVED outcome for the order and leaves the row
    at its quantity minus the order's (10 and 5 give 5); the other rows are
    as they were. *)
Theorem reserved_when_stock_suffices event env w r :
  inventories w !! OrderCreatedEvent.ProductID event = Some r →
  OrderCreatedEvent.Quantity event ≤ Row.quantity r →
  healthy env →
  let w' := (iteration (Message (Encodes event)) env w).2 in
  published_since w w' =
    [(inventory_reserved,
      RESERVED (OrderCreatedEvent.OrderID event) "Reserved successfully")]
  ∧ inventories w' !! OrderCreatedEvent.ProductID event =
      Some (Row.mk (Row.quantity r - OrderCreatedEvent.Quantity event) (Row.updated_at r))
  ∧ ∀ p, p ≠ OrderCreatedEvent.ProductID event →
         inventories w' !! p = inventories w !! p.
Proof.
  intros Hrow Hle (Hquery & Hexec & Hwrite) w'. subst w'.
  rewrite iteration_decoded.
  rewrite (handleOrder_reserved _ _ _ _ (select_result_found _ _ _ _ Hquery Hrow) Hle Hexec).
  since. cbn [inventories]. rewrite Hwrite. split; [reflexivity|]. split.
  - by rewrite lookup_alter_eq, Hrow.
  - intros p Hp. by rewrite lookup_alter_ne.
Qed.

Lemma reserved_when_stock_suffices_witness :
  let w := stocked 42 10 in
  let w' := (iteration (Message (Encodes (order 7 42 5))) no_faults w).2 in
  published_since w w' = [(inventory_reserved, RESERVED 7 "Reserved successfully")]
  ∧ inventories w' !! 42 = Some (Row.mk (10 - 5) 0)
  ∧ ∀ p, p ≠ 42 → inventories w' !! p = inventories w !! p.
Proof.
  apply (reserved_when_stock_suffices (order 7 42 5) no_faults (stocked 42 10) (Row.mk 10 0)).
  - vm_compute. reflexivity.
  - vm_compute. discriminate.
  - repeat split.
Defined.

(** C4.  For every order that is rejected, the table is left as it was, no
    UPDATE is sent, and the one outcome handed to the writer of
    "inventory-failed" is FAILED with the reason of the rejection: "Not
    enough stock" when the row of the product holds less than the order
    asks for, "Product not found" when the product has no row.  That
    outcome is what the broker gets when the write goes through. *)
Theorem rejected_leaves_store event env w reason :
  Rejected event env w reason →
  let w' := (iteration (Message (Encodes event)) env w).2 in
  inventories w' = inventories w
  ∧ (∀ amount p err, CallDecrement amount p err ∉ calls_since w w')
  ∧ writes (calls_since w w') =
      [(inventory_failed, FAILED (OrderCreatedEvent.OrderID event) reason)]
  ∧ published_since w w' =
      if write_err env then []
      else [(inventory_failed, FAILED (OrderCreatedEvent.OrderID event) reason)].
Proof.
  intros Hrej w'. subst w'. rewrite iteration_decoded.
  destruct Hrej as [r Hquery Hrow Hlt|Hrow].
  - rewrite (handleOrder_not_enough _ _ _ _ (select_result_found _ _ _ _ Hquery Hrow) Hlt).
    since. repeat split. intros amount p err. absent.
  - rewrite (handleOrder_not_found _ _ _ (select_result_unknown env _ _ Hrow)).
    since. repeat split. intros amount p err. absent.
Qed.

Lemma rejected_leaves_store_witness :
  let w := stocked 42 3 in
  let w' := (iteration (Message (Encodes (order 7 42 5))) no_faults w).2 in
  inventories w' = inventories w
  ∧ (∀ amount p err, CallDecrement amount p err ∉ calls_since w w')
  ∧ writes (calls_since w w') = [(inventory_failed, FAILED 7 "Not enough stock")]
  ∧ published_since w w' = [(inventory_failed, FAILED 7 "Not enough stock")].
Proof.
  apply (rejected_leaves_store (order 7 42 5) no_faults (stocked 42 3) "Not enough stock").
  apply (InsufficientStock _ _ _ (Row.mk 3 0)).
  - reflexivity.
  - vm_compute. reflexivity.
  - vm_compute. reflexivity.
Defined.

(** The other rejection on a run: product 999 has no row. *)
Example unknown_product_999 :
  let w := stocked 42 3 in
  let w' := (iteration (Message (Encodes (order 8 999 1))) no_faults w).2 in
  inventories w' = inventories w
  ∧ published_since w w' = [(inventory_failed, FAILED 8 "Product not found")].
Proof. cbv zeta. split; vm_compute; reflexivity. Qed.

(** A payload that cannot be decoded is skipped: a line in the log, no call
    to the store or to a writer. *)
Example malformed_payload_skipped :
  iteration (Message Malformed) no_faults (stocked 42 10)
  = (tt, with_line JSONUnmarshalError (stocked 42 10)).
Proof. reflexivity. Qed.

(** Two orders of one unit, one unit in stock, one after the other: the
    first is RESERVED, the second FAILED, and the row ends at 0. *)
Example two_orders_one_unit_in_turn :
  let w' := consumeOrderCreated
              [(Message (Encodes (order 7 1 1)), no_faults);
               (Message (Encodes (order 8 1 1)), no_faults)] (stocked 1 1) in
  broker w' = [(inventory_reserved, RESERVED 7 "Reserved successfully");
               (inventory_failed, FAILED 8 "Not enough stock")]
  ∧ inventories w' !! 1 = Some (Row.mk 0 0).
Proof. cbv zeta. split; vm_compute; reflexivity. Qed.

(** ** The invariant of the table *)

Lemma handleOrder_inventories event env w :
  inventories (handleOrder event env w).2 = inventories w
  ∨ ∃ r, inventories w !! OrderCreatedEvent.ProductID event = Some r
         ∧ OrderCreatedEvent.Quantity event ≤ Row.quantity r
         ∧ inventories (handleOrder event env w).2
           = alter (decrement (OrderCreatedEvent.Quantity event))
               (OrderCreatedEvent.ProductID event) (inventories w).
Proof.
  destruct (handleOrder_cases event env w)
    as [Hsel|[(quantity & Hsel & Hq)|[(quantity & Hsel & Hq & Herr)
                                     |(quantity & Hsel & Hq & Herr)]]].
  - left. by rewrite (handleOrder_not_found _ _ _ Hsel).
  - left. by rewrite (handleOrder_not_enough _ _ _ _ Hsel Hq).
  - left. by rewrite (handleOrder_update_fails _ _ _ _ Hsel Hq Herr).
  - right. rewrite (handleOrder_reserved _ _ _ _ Hsel Hq Herr).
    apply select_result_Some in Hsel as [_ (r & Hr & <-)]. by exists r.
Qed.

Lemma quantities_nonneg_decrement db product_id amount r :
  quantities_nonneg db →
  db !! product_id = Some r →
  amount ≤ Row.quantity r →
  quantities_nonneg (alter (decrement amount) product_id db).
Proof.
  intros Hdb Hr Hle p r'. destruct (decide (product_id = p)) as [<-|Hne].
  - rewrite lookup_alter_eq, Hr. intros [= <-]. cbn. lia.
  - rewrite lookup_alter_ne by done. apply Hdb.
Qed.

Lemma quantities_nonneg_set db product_id quantity at_time :
  quantities_nonneg db →
  0 ≤ quantity →
  quantities_nonneg (alter (λ _, Row.mk quantity at_time) product_id db).
Proof.
  intros Hdb Hq p r'. destruct (decide (product_id = p)) as [<-|Hne].
  - rewrite lookup_alter_eq. destruct (db !! product_id); [|done].
    intros [= <-]. exact Hq.
  - rewrite lookup_alter_ne by done. apply Hdb.
Qed.

Lemma quantities_nonneg_insert db product_id quantity at_time :
  quantities_nonneg db →
  0 ≤ quantity →
  quantities_nonneg (<[product_id := Row.mk quantity at_time]> db).
Proof.
  intros Hdb Hq p r'. destruct (decide (product_id = p)) as [<-|Hne].
  - rewrite lookup_insert_eq. intros [= <-]. exact Hq.
  - rewrite lookup_insert_ne by done. apply Hdb.
Qed.

Lemma iteration_quantities_nonneg d env w :
  quantities_nonneg (inventories w) →
  quantities_nonneg (inventories (iteration d env w).2).
Proof.
  intros Hdb. destruct d as [|[|event]]; [exact Hdb..|].
  rewrite iteration_decoded.
  destruct (handleOrder_inventories event env w) as [->|(r & Hr & Hle & ->)];
    [exact Hdb|].
  by eapply quantities_nonneg_decrement.
Qed.

Lemma perform_quantities_nonneg int_of_text op env w :
  quantity_nonneg op →
  quantities_nonneg (inventories w) →
  quantities_nonneg (inventories (perform int_of_text op env w).2).
Proof.
  intros Hop Hdb. destruct op as [d|r|r|r]; cbn [perform quantity_nonneg] in *.
  - by apply iteration_quantities_nonneg.
  - unfold getInventory, selectQuantityText. run_M.
    destruct (int_of_text (product_id_var r)); cbn; [|exact Hdb].
    by destruct (query_err env); cbn; [|destruct (_ !! _)].
  - unfold createInventory, insertInventory. run_M.
    destruct (exec_err env || _); cbn; [exact Hdb|].
    by apply quantities_nonneg_insert.
  - unfold updateInventory, updateQuantity. run_M.
    destruct (int_of_text (product_id_var r)) as [product_id|];
      destruct (exec_err env || _); cbn; try exact Hdb.
    by apply quantities_nonneg_set.
Qed.

(** C5 fails as stated: the update handler stores the quantity of the
    request as it comes.  A PUT of quantity -5 for product 42 is answered
    200 and leaves the row at -5; a POST of quantity -1 for a new product
    is answered 201 and creates the row with -1. *)
Lemma handlers_store_negative_quantity :
  let w := stocked 42 10 in
  let put := updateInventory decimal (mkRequest "42" (Some (Inventory.mk 42 (-5)))) no_faults w in
  let post := createInventory (mkRequest "" (Some (Inventory.mk 43 (-1)))) no_faults w in
  quantities_nonneg (inventories w)
  ∧ put.1 = mkResponse StatusOK Empty
  ∧ inventories put.2 !! 42 = Some (Row.mk (-5) 0)
  ∧ ¬ quantities_nonneg (inventories put.2)
  ∧ post.1 = mkResponse StatusCreated Empty
  ∧ inventories post.2 !! 43 = Some (Row.mk (-1) 0)
  ∧ ¬ quantities_nonneg (inventories post.2).
Proof.
  cbv zeta. split; [|split; [|split; [|split; [|split; [|split]]]]].
  - intros p r. unfold stocked. cbn [inventories].
    intros [<- <-]%lookup_singleton_Some. done.
  - vm_compute. reflexivity.
  - vm_compute. reflexivity.
  - intros Hdb. specialize (Hdb 42 (Row.mk (-5) 0)).
    assert (0 ≤ -5) as Hneg; [|lia]. apply Hdb. vm_compute. reflexivity.
  - vm_compute. reflexivity.
  - vm_compute. reflexivity.
  - intros Hdb. specialize (Hdb 43 (Row.mk (-1) 0)).
    assert (0 ≤ -1) as Hneg; [|lia]. apply Hdb. vm_compute. reflexivity.
Qed.

(** C5, as the code has it.  In a run where each operation is done before
    the next one starts, and where every POST and PUT carries a quantity
    that is not negative, every row keeps a quantity that is not negative:
    the decrement of the consumer loop is only sent when the quantity read
    is at least the amount, and the two handlers store the quantity of the
    request unchecked. *)
Theorem quantities_nonneg_preserved int_of_text ops w :
  Forall (λ oe : Operation * Env, quantity_nonneg oe.1) ops →
  quantities_nonneg (inventories w) →
  quantities_nonneg (inventories (perform_all int_of_text ops w)).
Proof.
  intros Hops. revert w.
  induction Hops as [|[op env] ops Hop _ IH]; intros w Hdb; cbn [perform_all].
  - exact Hdb.
  - apply IH. by apply perform_quantities_nonneg.
Qed.

Lemma quantities_nonneg_preserved_witness :
  quantities_nonneg
    (inventories
       (perform_all decimal
          [(POST (mkRequest "" (Some (Inventory.mk 42 10))), no_faults);
           (Consume (Message (Encodes (order 7 42 5))), no_faults);
           (PUT (mkRequest "42" (Some (Inventory.mk 0 8))), no_faults);
           (Consume (Message (Encodes (order 8 42 9))), no_faults);
           (GET (mkRequest "42" None), no_faults)]
          empty_world)).
Proof.
  apply (quantities_nonneg_preserved decimal).
  - repeat constructor; cbn; lia.
  - intros p r. cbn [empty_world inventories]. rewrite lookup_empty. discriminate.
Defined.

(** ** Redelivery, validation, store errors *)

(** C6 fails as stated: the same delivery of order 7 (5 of product 42,
    10 in stock) processed twice decrements twice; both outcomes are
    RESERVED and the row ends at 0. *)
Lemma duplicate_delivery_decrements_twice :
  let d := (Message (Encodes (order 7 42 5)), no_faults) in
  let w' := consumeOrderCreated [d; d] (stocked 42 10) in
  inventories w' !! 42 = Some (Row.mk 0 0)
  ∧ broker w' = [(inventory_reserved, RESERVED 7 "Reserved successfully");
                 (inventory_reserved, RESERVED 7 "Reserved successfully")]
  ∧ calls w' =
      [CallSelect 42 (Some 10); CallDecrement 5 42 false;
       CallWrite inventory_reserved (RESERVED 7 "Reserved successfully") false;
       CallSelect 42 (Some 5); CallDecrement 5 42 false;
       CallWrite inventory_reserved (RESERVED 7 "Reserved successfully") false].
Proof. cbv zeta. repeat split; vm_compute; reflexivity. Qed.

(** C6, as the code has it.  One delivery applies the decrement of its
    order at most once, but nothing keeps track of the orderIDs already
    processed: when a delivery is processed a second time and the quantity
    left after the first is still at least the order's quantity, the
    decrement is applied again, so the row loses the order's quantity
    twice. *)
Theorem duplicate_delivery_decrements_again event env1 env2 w r :
  inventories w !! OrderCreatedEvent.ProductID event = Some r →
  OrderCreatedEvent.Quantity event ≤ Row.quantity r →
  OrderCreatedEvent.Quantity event ≤ Row.quantity r - OrderCreatedEvent.Quantity event →
  query_err env1 = false → exec_err env1 = false →
  query_err env2 = false → exec_err env2 = false →
  let d := Message (Encodes event) in
  let w1 := consumeOrderCreated [(d, env1)] w in
  let w2 := consumeOrderCreated [(d, env1); (d, env2)] w in
  applied_decrements (calls_since w w1) =
    [(OrderCreatedEvent.Quantity event, OrderCreatedEvent.ProductID event)]
  ∧ applied_decrements (calls_since w1 w2) =
    [(OrderCreatedEvent.Quantity event, OrderCreatedEvent.ProductID event)]
  ∧ inventories w2 !! OrderCreatedEvent.ProductID event =
      Some (Row.mk (Row.quantity r - OrderCreatedEvent.Quantity event
                    - OrderCreatedEvent.Quantity event) (Row.updated_at r)).
Proof.
  intros Hrow Hle1 Hle2 Hq1 He1 Hq2 He2 d w1 w2. subst d w1 w2.
  cbn [consumeOrderCreated]. rewrite !iteration_decoded.
  rewrite (handleOrder_reserved _ _ _ _ (select_result_found _ _ _ _ Hq1 Hrow) Hle1 He1).
  cbn [snd].
  match goal with
  | |- context [handleOrder event env2 ?w1] =>
      assert (Hrow1 : inventories w1 !! OrderCreatedEvent.ProductID event
                      = Some (decrement (OrderCreatedEvent.Quantity event) r))
        by (cbn [inventories]; by rewrite lookup_alter_eq, Hrow);
      rewrite (handleOrder_reserved _ _ _ _
                 (select_result_found _ _ _ _ Hq2 Hrow1) Hle2 He2)
  end.
  since. cbn [inventories].
  repeat split.
  by rewrite lookup_alter_eq, lookup_alter_eq, Hrow.
Qed.

Lemma duplicate_delivery_decrements_again_witness :
  let d := Message (Encodes (order 7 42 5)) in
  let w := stocked 42 10 in
  let w1 := consumeOrderCreated [(d, no_faults)] w in
  let w2 := consumeOrderCreated [(d, no_faults); (d, no_faults)] w in
  applied_decrements (calls_since w w1) = [(5, 42)]
  ∧ applied_decrements (calls_since w1 w2) = [(5, 42)]
  ∧ inventories w2 !! 42 = Some (Row.mk (10 - 5 - 5) 0).
Proof.
  apply (duplicate_delivery_decrements_again (order 7 42 5) no_faults no_faults
           (stocked 42 10) (Row.mk 10 0)).
  - vm_compute. reflexivity.
  - vm_compute. discriminate.
  - vm_compute. discriminate.
  - reflexivity.
  - reflexivity.
  - reflexivity.
  - reflexivity.
Defined.

(** C7 fails as stated: an order of quantity -3 is not turned down.  The
    store is read and written, the outcome is RESERVED and the row of
    product 42 goes from 10 to 13; an order of quantity 0 is RESERVED as
    well. *)
Lemma nonpositive_quantity_is_reserved :
  let w := stocked 42 10 in
  let w' := (iteration (Message (Encodes (order 7 42 (-3)))) no_faults w).2 in
  let w0 := (iteration (Message (Encodes (order 8 42 0))) no_faults w).2 in
  calls_since w w' =
    [CallSelect 42 (Some 10); CallDecrement (-3) 42 false;
     CallWrite inventory_reserved (RESERVED 7 "Reserved successfully") false]
  ∧ published_since w w' = [(inventory_reserved, RESERVED 7 "Reserved successfully")]
  ∧ inventories w' !! 42 = Some (Row.mk 13 0)
  ∧ published_since w w0 = [(inventory_reserved, RESERVED 8 "Reserved successfully")].
Proof. cbv zeta. repeat split; vm_compute; reflexivity. Qed.

(** C7, as the code has it.  The shape of an event is not looked at: an
    order whose quantity is not positive is processed like any other.  The
    first thing the iteration does is read the store; no outcome carries
    the message "invalid event"; and when the product has a row whose
    quantity is not negative and the store answers, the order is RESERVED
    and the row is left at its quantity minus the order's, which is no
    less than before. *)
Theorem nonpositive_quantity_not_validated event env w :
  OrderCreatedEvent.Quantity event ≤ 0 →
  let w' := (iteration (Message (Encodes event)) env w).2 in
  (∃ res, calls_since w w' !! 0%nat
          = Some (CallSelect (OrderCreatedEvent.ProductID event) res))
  ∧ (∀ t o, (t, o) ∈ writes (calls_since w w') →
            InventoryReservedEvent.Message o ≠ "invalid event")
  ∧ (∀ r, query_err env = false → exec_err env = false →
          inventories w !! OrderCreatedEvent.ProductID event = Some r →
          0 ≤ Row.quantity r →
          writes (calls_since w w') =
            [(inventory_reserved,
              RESERVED (OrderCreatedEvent.OrderID event) "Reserved successfully")]
          ∧ inventories w' !! OrderCreatedEvent.ProductID event =
              Some (Row.mk (Row.quantity r - OrderCreatedEvent.Quantity event)
                      (Row.updated_at r))
          ∧ Row.quantity r ≤ Row.quantity r - OrderCreatedEvent.Quantity event).
Proof.
  intros Hq w'. subst w'. rewrite iteration_decoded. split; [|split].
  - destruct (handleOrder_cases event env w)
      as [Hsel|[(quantity & Hsel & Hlt)|[(quantity & Hsel & Hle & Herr)
                                        |(quantity & Hsel & Hle & Herr)]]].
    + rewrite (handleOrder_not_found _ _ _ Hsel). since. eauto.
    + rewrite (handleOrder_not_enough _ _ _ _ Hsel Hlt). since. eauto.
    + rewrite (handleOrder_update_fails _ _ _ _ Hsel Hle Herr). since. eauto.
    + rewrite (handleOrder_reserved _ _ _ _ Hsel Hle Herr). since. eauto.
  - intros t o.
    destruct (handleOrder_cases event env w)
      as [Hsel|[(quantity & Hsel & Hlt)|[(quantity & Hsel & Hle & Herr)
                                        |(quantity & Hsel & Hle & Herr)]]].
    + rewrite (handleOrder_not_found _ _ _ Hsel). since.
      intros [[= -> ->]|[]%elem_of_nil]%elem_of_cons. discriminate.
    + rewrite (handleOrder_not_enough _ _ _ _ Hsel Hlt). since.
      intros [[= -> ->]|[]%elem_of_nil]%elem_of_cons. discriminate.
    + rewrite (handleOrder_update_fails _ _ _ _ Hsel Hle Herr). since.
      intros [[= -> ->]|[]%elem_of_nil]%elem_of_cons. discriminate.
    + rewrite (handleOrder_reserved _ _ _ _ Hsel Hle Herr). since.
      intros [[= -> ->]|[]%elem_of_nil]%elem_of_cons. discriminate.
  - intros r Hquery Hexec Hrow Hr.
    assert (Hle : OrderCreatedEvent.Quantity event ≤ Row.quantity r) by lia.
    rewrite (handleOrder_reserved _ _ _ _
               (select_result_found _ _ _ _ Hquery Hrow) Hle Hexec).
    since. cbn [inventories]. split; [reflexivity|]. split; [|lia].
    by rewrite lookup_alter_eq, Hrow.
Qed.

Lemma nonpositive_quantity_not_validated_witness :
  let w := stocked 42 10 in
  let w' := (iteration (Message (Encodes (order 7 42 (-3)))) no_faults w).2 in
  (∃ res, calls_since w w' !! 0%nat = Some (CallSelect 42 res))
  ∧ (∀ t o, (t, o) ∈ writes (calls_since w w') →
            InventoryReservedEvent.Message o ≠ "invalid event")
  ∧ (∀ r, query_err no_faults = false → exec_err no_faults = false →
          inventories w !! 42 = Some r →
          0 ≤ Row.quantity r →
          writes (calls_since w w') =
            [(inventory_reserved, RESERVED 7 "Reserved successfully")]
          ∧ inventories w' !! 42 = Some (Row.mk (Row.quantity r - -3) (Row.updated_at r))
          ∧ Row.quantity r ≤ Row.quantity r - -3).
Proof.
  apply (nonpositive_quantity_not_validated (order 7 42 (-3)) no_faults (stocked 42 10)).
  vm_compute. discriminate.
Defined.

(** C8 fails as stated: product 42 has 10 in stock and the SELECT of an
    order for 5 comes back with an error.  The outcome is FAILED "Product
    not found", the very outcome an order for a product without a row
    gets, and not "transient error". *)
Lemma select_error_reads_as_unknown_product :
  let failing := mkEnv true false false 0 in
  let w := stocked 42 10 in
  let w' := (iteration (Message (Encodes (order 7 42 5))) failing w).2 in
  let u' := (iteration (Message (Encodes (order 7 42 5))) no_faults empty_world).2 in
  inventories w !! 42 = Some (Row.mk 10 0)
  ∧ published_since w w' = [(inventory_failed, FAILED 7 "Product not found")]
  ∧ published_since empty_world u' = published_since w w'
  ∧ published_since w w' ≠ [(inventory_failed, FAILED 7 "transient error")].
Proof.
  cbv zeta. split; [|split; [|split]]; try (vm_compute; reflexivity).
  vm_compute. discriminate.
Qed.

(** C8, as the code has it.  When a store call of an iteration comes back
    with an error, the outcome is FAILED and the table is left as it was.
    A failed SELECT gives the message "Product not found", the message of
    an unknown product; a failed UPDATE gives "Cannot reserve inventory",
    a message of its own.  Neither is "transient error". *)
Theorem store_failure_outcome event env w message :
  StoreFailure event env w message →
  let w' := (iteration (Message (Encodes event)) env w).2 in
  writes (calls_since w w') =
    [(inventory_failed, FAILED (OrderCreatedEvent.OrderID event) message)]
  ∧ published_since w w' =
      (if write_err env then []
       else [(inventory_failed, FAILED (OrderCreatedEvent.OrderID event) message)])
  ∧ inventories w' = inventories w
  ∧ message ≠ "transient error"
  ∧ (message = "Cannot reserve inventory" →
     message ≠ "Not enough stock" ∧ message ≠ "Product not found").
Proof.
  intros Hfail w'. subst w'. rewrite iteration_decoded.
  destruct Hfail as [Hquery|r Hquery Hrow Hle Hexec].
  - assert (Hsel : select_result env w (OrderCreatedEvent.ProductID event) = None)
      by (unfold select_result; by rewrite Hquery).
    rewrite (handleOrder_not_found _ _ _ Hsel). since. by repeat split.
  - rewrite (handleOrder_update_fails _ _ _ _
               (select_result_found _ _ _ _ Hquery Hrow) Hle Hexec).
    since. by repeat split.
Qed.

Lemma store_failure_outcome_witness :
  let env := mkEnv false true false 0 in
  let w := stocked 42 10 in
  let w' := (iteration (Message (Encodes (order 7 42 5))) env w).2 in
  writes (calls_since w w') = [(inventory_failed, FAILED 7 "Cannot reserve inventory")]
  ∧ published_since w w' = [(inventory_failed, FAILED 7 "Cannot reserve inventory")]
  ∧ inventories w' = inventories w
  ∧ "Cannot reserve inventory" ≠ "transient error"
  ∧ ("Cannot reserve inventory" = "Cannot reserve inventory" →
     "Cannot reserve inventory" ≠ "Not enough stock"
     ∧ "Cannot reserve inventory" ≠ "Product not found").
Proof.
  apply (store_failure_outcome (order 7 42 5) (mkEnv false true false 0) (stocked 42 10)
           "Cannot reserve inventory").
  apply (UpdateFails _ _ _ (Row.mk 10 0)).
  - reflexivity.
  - vm_compute. reflexivity.
  - vm_compute. discriminate.
  - reflexivity.
Defined.

(** ** The producers and the GET handler *)

(** C9 fails as stated: the write of the outcome of order 7 comes back
    with an error, and the caller of either producer gets the same, empty,
    result as when the write goes through; no reading of that result tells
    the two apart. *)
Lemma publish_drops_write_error :
  let failing := mkEnv false false true 0 in
  (WriteMessages inventory_failed (FAILED 7 "Not enough stock") failing empty_world).1 = true
  ∧ (publishInventoryFailed 7 "Not enough stock" failing empty_world).1
    = (publishInventoryFailed 7 "Not enough stock" no_faults empty_world).1
  ∧ (publishInventoryReserved 7 "Reserved successfully" failing empty_world).1
    = (publishInventoryReserved 7 "Reserved successfully" no_faults empty_world).1
  ∧ ¬ (∃ report : unit → bool,
         ∀ env, report (publishInventoryFailed 7 "Not enough stock" env empty_world).1
                = write_err env).
Proof.
  cbv zeta. split; [|split; [|split]]; try reflexivity.
  intros [report Hreport].
  pose proof (Hreport (mkEnv false false true 0)) as Hfail.
  pose proof (Hreport no_faults) as Hok.
  change (report tt = true) in Hfail. change (report tt = false) in Hok.
  congruence.
Qed.

(** C9, as the code has it.  When the write of an outcome comes back with
    an error, the producer drops it: what the caller gets back is the empty
    result it always gets, the write was tried once, and the broker, the
    log and the table are as they were. *)
Theorem publish_discards_write_error orderID message env w :
  write_err env = true →
  let reserved := publishInventoryReserved orderID message env w in
  let failed := publishInventoryFailed orderID message env w in
  (reserved.1 = tt
   ∧ calls reserved.2 =
       calls w ++ [CallWrite inventory_reserved (RESERVED orderID message) true]
   ∧ broker reserved.2 = broker w
   ∧ logged reserved.2 = logged w
   ∧ inventories reserved.2 = inventories w)
  ∧ (failed.1 = tt
     ∧ calls failed.2 =
         calls w ++ [CallWrite inventory_failed (FAILED orderID message) true]
     ∧ broker failed.2 = broker w
     ∧ logged failed.2 = logged w
     ∧ inventories failed.2 = inventories w).
Proof.
  intros Herr reserved failed. subst reserved failed.
  unfold publishInventoryReserved, publishInventoryFailed, WriteMessages,
    mbind, M_bind, mret, M_ret. cbn [fst snd].
  rewrite Herr. repeat split.
Qed.

Lemma publish_discards_write_error_witness :
  let env := mkEnv false false true 0 in
  let w := stocked 42 10 in
  let reserved := publishInventoryReserved 7 "Reserved successfully" env w in
  let failed := publishInventoryFailed 7 "Reserved successfully" env w in
  (reserved.1 = tt
   ∧ calls reserved.2 =
       calls w ++ [CallWrite inventory_reserved (RESERVED 7 "Reserved successfully") true]
   ∧ broker reserved.2 = broker w
   ∧ logged reserved.2 = logged w
   ∧ inventories reserved.2 = inventories w)
  ∧ (failed.1 = tt
     ∧ calls failed.2 =
         calls w ++ [CallWrite inventory_failed (FAILED 7 "Reserved successfully") true]
     ∧ broker failed.2 = broker w
     ∧ logged failed.2 = logged w
     ∧ inventories failed.2 = inventories w).
Proof.
  apply (publish_discards_write_error 7 "Reserved successfully"
           (mkEnv false false true 0) (stocked 42 10)).
  reflexivity.
Defined.

(** The loop does not learn of it either: its log and the table after an
    iteration do not depend on what became of the write. *)
Lemma iteration_blind_to_write_error d env env' w :
  query_err env = query_err env' →
  exec_err env = exec_err env' →
  logged (iteration d env w).2 = logged (iteration d env' w).2
  ∧ inventories (iteration d env w).2 = inventories (iteration d env' w).2.
Proof.
  intros Hquery Hexec. destruct d as [|[|event]]; [by split..|].
  rewrite !iteration_decoded.
  assert (Hsel : select_result env' w (OrderCreatedEvent.ProductID event)
                 = select_result env w (OrderCreatedEvent.ProductID event))
    by (unfold select_result; by rewrite Hquery).
  destruct (handleOrder_cases event env w)
    as [Hs|[(quantity & Hs & Hq)|[(quantity & Hs & Hq & Herr)
                                 |(quantity & Hs & Hq & Herr)]]];
    pose proof Hs as Hs'; rewrite <- Hsel in Hs'.
  - by rewrite (handleOrder_not_found _ _ _ Hs), (handleOrder_not_found _ _ _ Hs').
  - by rewrite (handleOrder_not_enough _ _ _ _ Hs Hq),
         (handleOrder_not_enough _ _ _ _ Hs' Hq).
  - pose proof Herr as Herr'. rewrite Hexec in Herr'.
    by rewrite (handleOrder_update_fails _ _ _ _ Hs Hq Herr),
         (handleOrder_update_fails _ _ _ _ Hs' Hq Herr').
  - pose proof Herr as Herr'. rewrite Hexec in Herr'.
    by rewrite (handleOrder_reserved _ _ _ _ Hs Hq Herr),
         (handleOrder_reserved _ _ _ _ Hs' Hq Herr').
Qed.

(** C10.  A GET for a product that has a row, answered by the store, gets
    status 200 and a body whose [quantity] is the quantity of the row and
    whose [available] is true exactly when that quantity is above 0. *)
Theorem getInventory_available int_of_text request env w product_id r :
  int_of_text (product_id_var request) = Some product_id →
  inventories w !! product_id = Some r →
  query_err env = false →
  ∃ available,
    (getInventory int_of_text request env w).1
    = mkResponse StatusOK (AvailableQuantity available (Row.quantity r))
    ∧ (available = true ↔ 0 < Row.quantity r).
Proof.
  intros Htext Hrow Hquery. exists (Row.quantity r >? 0). split.
  - unfold getInventory, selectQuantityText. rewrite Htext. run_M.
    by rewrite Hquery, Hrow.
  - rewrite Z.gtb_ltb. apply Z.ltb_lt.
Qed.

Lemma getInventory_available_witness :
  ∃ available,
    (getInventory decimal (mkRequest "42" None) no_faults (stocked 42 10)).1
    = mkResponse StatusOK (AvailableQuantity available (Row.quantity (Row.mk 10 0)))
    ∧ (available = true ↔ 0 < Row.quantity (Row.mk 10 0)).
Proof.
  apply (getInventory_available decimal (mkRequest "42" None) no_faults (stocked 42 10) 42).
  - vm_compute. reflexivity.
  - vm_compute. reflexivity.
  - reflexivity.
Defined.

(** The two sides of 0 on the handler itself. *)
Example getInventory_zero_not_available :
  (getInventory decimal (mkRequest "42" None) no_faults (stocked 42 0)).1
  = mkResponse 200 (AvailableQuantity false 0).
Proof. vm_compute. reflexivity. Qed.

Example getInventory_unknown_is_404 :
  (getInventory decimal (mkRequest "999" None) no_faults (stocked 42 10)).1
  = mkResponse 404 (Text "Product not found").
Proof. vm_compute. reflexivity. Qed.

(** ** Longer runs of the loop *)

Ltac by_path event env w :=
  let Hsel := fresh "Hsel" in
  let Hq := fresh "Hq" in
  let Herr := fresh "Herr" in
  let quantity := fresh "quantity" in
  destruct (handleOrder_cases event env w)
    as [Hsel|[(quantity & Hsel & Hq)|[(quantity & Hsel & Hq & Herr)
                                     |(quantity & Hsel & Hq & Herr)]]];
  [ rewrite (handleOrder_not_found _ _ _ Hsel)
  | rewrite (handleOrder_not_enough _ _ _ _ Hsel Hq)
  | rewrite (handleOrder_update_fails _ _ _ _ Hsel Hq Herr)
  | rewrite (handleOrder_reserved _ _ _ _ Hsel Hq Herr) ];
  cbn [fst snd inventories broker logged calls].

(** What one iteration adds to the trace, the broker and the log. *)
Lemma iteration_appends d env w :
  ∃ cs ls,
    calls (iteration d env w).2 = calls w ++ cs
    ∧ broker (iteration d env w).2 = broker w ++ accepted_writes cs
    ∧ logged (iteration d env w).2 = logged w ++ ls.
Proof.
  destruct d as [|[|event]].
  - exists [], [KafkaReadError]. cbn. by rewrite !app_nil_r.
  - exists [], [JSONUnmarshalError]. cbn. by rewrite !app_nil_r.
  - rewrite iteration_decoded.
    by_path event env w; eexists _, _; (split; [reflexivity|]);
      (split; [|reflexivity]); by destruct (write_err env).
Qed.

Lemma accepted_writes_app cs1 cs2 :
  accepted_writes (cs1 ++ cs2) = accepted_writes cs1 ++ accepted_writes cs2.
Proof. apply omap_app. Qed.

Lemma writes_app cs1 cs2 : writes (cs1 ++ cs2) = writes cs1 ++ writes cs2.
Proof. apply omap_app. Qed.

Lemma applied_decrements_app cs1 cs2 :
  applied_decrements (cs1 ++ cs2) = applied_decrements cs1 ++ applied_decrements cs2.
Proof. apply omap_app. Qed.

Lemma decremented_by_app product_id cs1 cs2 :
  decremented_by product_id (cs1 ++ cs2)
  = decremented_by product_id cs1 + decremented_by product_id cs2.
Proof.
  unfold decremented_by. rewrite applied_decrements_app, foldr_app.
  induction (applied_decrements cs1) as [|[amount p] aps IH]; cbn [foldr].
  - lia.
  - rewrite IH. case_bool_decide; lia.
Qed.

Lemma consumeOrderCreated_appends ds w :
  ∃ cs ls,
    calls (consumeOrderCreated ds w) = calls w ++ cs
    ∧ broker (consumeOrderCreated ds w) = broker w ++ accepted_writes cs
    ∧ logged (consumeOrderCreated ds w) = logged w ++ ls.
Proof.
  revert w. induction ds as [|[d env] ds IH]; intros w; cbn [consumeOrderCreated].
  - exists [], []. by rewrite !app_nil_r.
  - destruct (iteration_appends d env w) as (cs1 & ls1 & Hc1 & Hb1 & Hl1).
    destruct (IH (iteration d env w).2) as (cs2 & ls2 & Hc2 & Hb2 & Hl2).
    exists (cs1 ++ cs2), (ls1 ++ ls2).
    rewrite Hc2, Hb2, Hl2, Hc1, Hb1, Hl1, accepted_writes_app.
    by rewrite !app_assoc.
Qed.

Lemma calls_since_split w w1 w2 cs1 cs2 :
  calls w1 = calls w ++ cs1 →
  calls w2 = calls w1 ++ cs2 →
  calls_since w w1 = cs1 ∧ calls_since w1 w2 = cs2
  ∧ calls_since w w2 = cs1 ++ cs2.
Proof.
  intros H1 H2. unfold calls_since. rewrite H2, H1. split; [|split].
  - apply drop_app_length.
  - apply drop_app_length.
  - rewrite <- app_assoc. apply drop_app_length.
Qed.

Lemma calls_since_step d env ds w :
  calls_since w (consumeOrderCreated ds (iteration d env w).2)
  = calls_since w (iteration d env w).2
    ++ calls_since (iteration d env w).2 (consumeOrderCreated ds (iteration d env w).2).
Proof.
  destruct (iteration_appends d env w) as (cs1 & ls1 & Hc1 & _).
  destruct (consumeOrderCreated_appends ds (iteration d env w).2) as (cs2 & ls2 & Hc2 & _).
  destruct (calls_since_split _ _ _ _ _ Hc1 Hc2) as (-> & -> & ->). reflexivity.
Qed.

Lemma calls_since_same w : calls_since w w = [].
Proof. unfold calls_since. apply drop_all. Qed.

Lemma iteration_writes d env w :
  InventoryReservedEvent.OrderID <$> (writes (calls_since w (iteration d env w).2)).*2
  = OrderCreatedEvent.OrderID <$> decoded_events [(d, env)].
Proof.
  destruct d as [|[|event]].
  - unfold calls_since. cbn. by rewrite drop_all.
  - unfold calls_since. cbn. by rewrite drop_all.
  - rewrite iteration_decoded. by_path event env w; by rewrite calls_since_app.
Qed.

(** X1.  Over any run of the loop, the outcomes handed to the writers are,
    in the order of the deliveries, one for each delivery that decoded and
    none for a read error or a payload that did not decode; each carries
    the orderID of its event. *)
Theorem outcomes_follow_deliveries ds w :
  InventoryReservedEvent.OrderID
    <$> (writes (calls_since w (consumeOrderCreated ds w))).*2
  = OrderCreatedEvent.OrderID <$> decoded_events ds.
Proof.
  revert w. induction ds as [|[d env] ds IH]; intros w; cbn [consumeOrderCreated].
  - by rewrite calls_since_same.
  - rewrite calls_since_step, writes_app, !fmap_app, IH, iteration_writes.
    change ((d, env) :: ds) with ([(d, env)] ++ ds).
    unfold decoded_events. by rewrite omap_app, fmap_app.
Qed.

Lemma perform_appends int_of_text op env w :
  ∃ cs ls,
    calls (perform int_of_text op env w).2 = calls w ++ cs
    ∧ broker (perform int_of_text op env w).2 = broker w ++ accepted_writes cs
    ∧ logged (perform int_of_text op env w).2 = logged w ++ ls
    ∧ match op with
      | Consume _ => True
      | _ => writes cs = [] ∧ ls = []
      end.
Proof.
  destruct op as [d|r|r|r]; cbn [perform].
  - destruct (iteration_appends d env w) as (cs & ls & Hc & Hb & Hl).
    by exists cs, ls.
  - unfold getInventory, selectQuantityText.
    destruct (int_of_text (product_id_var r)) as [product_id|]; run_M.
    + set (res := if query_err env then _ else _). clearbody res.
      destruct res; eexists [_], []; (split; [reflexivity|]); cbn;
        by rewrite !app_nil_r.
    + exists [], []. cbn. rewrite !app_nil_r. repeat split; done.
  - unfold createInventory, insertInventory. run_M.
    destruct (exec_err env || _); eexists [_], []; (split; [reflexivity|]); cbn;
      by rewrite !app_nil_r.
  - unfold updateInventory, updateQuantity. run_M.
    destruct (int_of_text (product_id_var r)); destruct (exec_err env || _);
      eexists [_], []; (split; [reflexivity|]); cbn; by rewrite !app_nil_r.
Qed.

Lemma perform_all_appends int_of_text ops w :
  ∃ cs ls,
    calls (perform_all int_of_text ops w) = calls w ++ cs
    ∧ broker (perform_all int_of_text ops w) = broker w ++ accepted_writes cs
    ∧ logged (perform_all int_of_text ops w) = logged w ++ ls.
Proof.
  revert w. induction ops as [|[op env] ops IH]; intros w; cbn [perform_all].
  - exists [], []. by rewrite !app_nil_r.
  - destruct (perform_appends int_of_text op env w) as (cs1 & ls1 & Hc1 & Hb1 & Hl1 & _).
    destruct (IH (perform int_of_text op env w).2) as (cs2 & ls2 & Hc2 & Hb2 & Hl2).
    exists (cs1 ++ cs2), (ls1 ++ ls2).
    rewrite Hc2, Hb2, Hl2, Hc1, Hb1, Hl1, accepted_writes_app.
    by rewrite !app_assoc.
Qed.


Lemma decrement_0 r : decrement 0 r = r.
Proof. destruct r as [q t]. unfold decrement. cbn. by rewrite Z.sub_0_r. Qed.

Lemma decrement_decrement a b r : decrement b (decrement a r) = decrement (a + b) r.
Proof. unfold decrement. cbn. f_equal. lia. Qed.

Lemma fmap_decrement_0 (o : option Row.t) : decrement 0 <$> o = o.
Proof. destruct o as [r|]; cbn; [by rewrite decrement_0|done]. Qed.

Lemma calls_since_line w l : calls_since w (with_line l w) = [].
Proof. unfold calls_since, with_line. cbn [calls]. apply drop_all. Qed.

Lemma iteration_conserves d env w product_id :
  inventories (iteration d env w).2 !! product_id
  = decrement (decremented_by product_id (calls_since w (iteration d env w).2))
      <$> inventories w !! product_id.
Proof.
  destruct d as [|[|event]].
  - change (iteration ReadError env w).2 with (with_line KafkaReadError w).
    by rewrite calls_since_line, fmap_decrement_0.
  - change (iteration (Message Malformed) env w).2 with (with_line JSONUnmarshalError w).
    by rewrite calls_since_line, fmap_decrement_0.
  - rewrite iteration_decoded.
    by_path event env w; rewrite calls_since_app; unfold decremented_by; cbn;
      try by rewrite fmap_decrement_0.
    case_bool_decide as Hp.
    + rewrite Hp, lookup_alter_eq, Z.add_0_r. reflexivity.
    + rewrite lookup_alter_ne by done. by rewrite fmap_decrement_0.
Qed.

Lemma consumeOrderCreated_lookup ds w product_id :
  inventories (consumeOrderCreated ds w) !! product_id
  = decrement (decremented_by product_id (calls_since w (consumeOrderCreated ds w)))
      <$> inventories w !! product_id.
Proof.
  revert w.
  induction ds as [|[d env] ds IH]; intros w; cbn [consumeOrderCreated].
  - by rewrite calls_since_same, fmap_decrement_0.
  - rewrite IH, iteration_conserves, calls_since_step, decremented_by_app.
    destruct (inventories w !! product_id) as [r|]; cbn; [|done].
    by rewrite decrement_decrement.
Qed.

(** X3.  Over any run of the loop, each row of the table is the row it was
    with its quantity less the decrements of that product that went
    through: the loop leaves [updated_at] alone and touches no product but
    those of the reserved orders; and the table has the same products
    after the run as before, none created and none removed. *)
Theorem consumeOrderCreated_conserves_stock ds w :
  let w' := consumeOrderCreated ds w in
  (∀ product_id,
     inventories w' !! product_id
     = decrement (decremented_by product_id (calls_since w w'))
         <$> inventories w !! product_id)
  ∧ dom (inventories w') = dom (inventories w).
Proof.
  cbv zeta. split; [intros product_id; apply consumeOrderCreated_lookup|].
  apply set_eq. intros product_id.
  rewrite !elem_of_dom, consumeOrderCreated_lookup. apply fmap_is_Some.
Qed.

Lemma consumeOrderCreated_quantities_nonneg ds w :
  quantities_nonneg (inventories w) →
  quantities_nonneg (inventories (consumeOrderCreated ds w)).
Proof.
  revert w. induction ds as [|[d env] ds IH]; intros w Hdb; cbn [consumeOrderCreated].
  - exact Hdb.
  - apply IH. by apply iteration_quantities_nonneg.
Qed.

(** X4.  The loop on its own does not oversell: from a table whose
    quantities are not negative, what a run of the loop takes from a
    product, decrements of negative amounts counted as such, is at most
    what the product had at the start. *)
Theorem reservations_within_stock ds w product_id r :
  quantities_nonneg (inventories w) →
  inventories w !! product_id = Some r →
  decremented_by product_id (calls_since w (consumeOrderCreated ds w)) ≤ Row.quantity r.
Proof.
  intros Hdb Hrow.
  pose proof (consumeOrderCreated_quantities_nonneg ds w Hdb) as Hdb'.
  pose proof (consumeOrderCreated_lookup ds w product_id) as Hcons.
  rewrite Hrow in Hcons. cbn in Hcons.
  apply Hdb' in Hcons. cbn in Hcons. lia.
Qed.

Lemma reservations_within_stock_witness :
  decremented_by 42
    (calls_since (stocked 42 10)
       (consumeOrderCreated
          [(Message (Encodes (order 7 42 6)), no_faults);
           (Message (Encodes (order 8 42 6)), no_faults);
           (Message (Encodes (order 9 42 4)), no_faults)] (stocked 42 10)))
  ≤ Row.quantity (Row.mk 10 0).
Proof.
  apply (reservations_within_stock _ (stocked 42 10) 42 (Row.mk 10 0)).
  - intros p r. unfold stocked. cbn [inventories].
    intros [<- <-]%lookup_singleton_Some. cbn. lia.
  - vm_compute. reflexivity.
Defined.

Lemma iteration_not_increasing d env w product_id r :
  match d with
  | Message (Encodes event) => 0 ≤ OrderCreatedEvent.Quantity event
  | _ => True
  end →
  inventories w !! product_id = Some r →
  ∃ r', inventories (iteration d env w).2 !! product_id = Some r'
        ∧ Row.quantity r' ≤ Row.quantity r
        ∧ Row.updated_at r' = Row.updated_at r.
Proof.
  intros Hq Hrow. destruct d as [|[|event]]; try (exists r; by cbn).
  rewrite iteration_decoded.
  destruct (handleOrder_inventories event env w) as [->|(r0 & Hr0 & Hle & ->)].
  - by exists r.
  - destruct (decide (OrderCreatedEvent.ProductID event = product_id)) as [<-|Hne].
    + rewrite lookup_alter_eq, Hrow. eexists. split; [reflexivity|]. cbn. split; [lia|done].
    + rewrite lookup_alter_ne by done. by exists r.
Qed.

(** X5.  When no decoded order asks for a negative quantity, a run of the
    loop raises the quantity of no product: every row is still there, with
    a quantity that is at most what it was. *)
Theorem consumeOrderCreated_not_increasing ds w product_id r :
  Forall (λ event, 0 ≤ OrderCreatedEvent.Quantity event) (decoded_events ds) →
  inventories w !! product_id = Some r →
  ∃ r', inventories (consumeOrderCreated ds w) !! product_id = Some r'
        ∧ Row.quantity r' ≤ Row.quantity r
        ∧ Row.updated_at r' = Row.updated_at r.
Proof.
  revert w r. induction ds as [|[d env] ds IH]; intros w r Hds Hrow;
    cbn [consumeOrderCreated].
  - by exists r.
  - assert (Hd : match d with
                 | Message (Encodes event) => 0 ≤ OrderCreatedEvent.Quantity event
                 | _ => True
                 end ∧ Forall (λ event, 0 ≤ OrderCreatedEvent.Quantity event)
                         (decoded_events ds)).
    { destruct d as [|[|event]]; cbn in Hds; try done.
      by apply Forall_cons in Hds. }
    destruct Hd as [Hd Hds'].
    destruct (iteration_not_increasing d env w product_id r Hd Hrow)
      as (r1 & Hr1 & Hle1 & Ht1).
    destruct (IH _ r1 Hds' Hr1) as (r' & Hr' & Hle & Ht).
    exists r'. split; [done|]. split; [lia|congruence].
Qed.

Lemma consumeOrderCreated_not_increasing_witness :
  ∃ r', inventories
          (consumeOrderCreated
             [(Message (Encodes (order 7 42 6)), no_faults);
              (Message Malformed, no_faults);
              (Message (Encodes (order 8 42 0)), no_faults)] (stocked 42 10)) !! 42
        = Some r'
        ∧ Row.quantity r' ≤ Row.quantity (Row.mk 10 0)
        ∧ Row.updated_at r' = Row.updated_at (Row.mk 10 0).
Proof.
  apply (consumeOrderCreated_not_increasing _ (stocked 42 10) 42 (Row.mk 10 0)).
  - repeat constructor; cbn; lia.
  - vm_compute. reflexivity.
Defined.

Lemma calls_since_skipped d env w :
  decoded_events [(d, env)] = [] →
  calls_since w (iteration d env w).2 = [].
Proof.
  destruct d as [|[|event]]; [intros _..|discriminate].
  - apply (calls_since_line w KafkaReadError).
  - apply (calls_since_line w JSONUnmarshalError).
Qed.

Lemma perform_writes int_of_text op env w :
  Forall (λ p, well_routed p ∧ InventoryReservedEvent.Message p.2 ∈ outcome_messages)
         (writes (calls_since w (perform int_of_text op env w).2)).
Proof.
  destruct op as [[|[|event]]|r|r|r].
  - cbn [perform]. by rewrite calls_since_skipped.
  - cbn [perform]. by rewrite calls_since_skipped.
  - cbn [perform]. rewrite iteration_decoded.
    by_path event env w; rewrite calls_since_app; cbn;
      repeat constructor; unfold outcome_messages; cbn; present.
  - destruct (perform_appends int_of_text (GET r) env w) as (cs & ls & Hc & _ & _ & Hw & _).
    unfold calls_since. rewrite Hc, drop_app_length, Hw. constructor.
  - destruct (perform_appends int_of_text (POST r) env w) as (cs & ls & Hc & _ & _ & Hw & _).
    unfold calls_since. rewrite Hc, drop_app_length, Hw. constructor.
  - destruct (perform_appends int_of_text (PUT r) env w) as (cs & ls & Hc & _ & _ & Hw & _).
    unfold calls_since. rewrite Hc, drop_app_length, Hw. constructor.
Qed.

Lemma calls_since_perform_step int_of_text op env ops w :
  calls_since w (perform_all int_of_text ops (perform int_of_text op env w).2)
  = calls_since w (perform int_of_text op env w).2
    ++ calls_since (perform int_of_text op env w).2
         (perform_all int_of_text ops (perform int_of_text op env w).2).
Proof.
  destruct (perform_appends int_of_text op env w) as (cs1 & ls1 & Hc1 & _).
  destruct (perform_all_appends int_of_text ops (perform int_of_text op env w).2)
    as (cs2 & ls2 & Hc2 & _).
  destruct (calls_since_split _ _ _ _ _ Hc1 Hc2) as (-> & -> & ->). reflexivity.
Qed.

Lemma Forall_accepted_writes (P : Topic * InventoryReservedEvent.t → Prop) cs :
  Forall P (writes cs) → Forall P (accepted_writes cs).
Proof.
  induction cs as [|c cs IH]; [done|].
  destruct c as [| | | |t v [|]]; cbn; try exact IH.
  - intros [_ H]%Forall_cons. by apply IH.
  - intros [Hp H]%Forall_cons. constructor; [done|by apply IH].
Qed.

(** X6.  Over any run of loop iterations and requests, every outcome
    handed to a writer goes to the topic of its status, RESERVED to
    "inventory-reserved" and FAILED to "inventory-failed", and carries one
    of the four messages of the loop; a broker whose records are on the
    topic of their status stays so. *)
Theorem outcomes_on_the_topic_of_their_status int_of_text ops w :
  let w' := perform_all int_of_text ops w in
  Forall (λ p, well_routed p ∧ InventoryReservedEvent.Message p.2 ∈ outcome_messages)
         (writes (calls_since w w'))
  ∧ (Forall well_routed (broker w) → Forall well_routed (broker w')).
Proof.
  cbv zeta.
  assert (Hwrites : ∀ w,
    Forall (λ p, well_routed p ∧ InventoryReservedEvent.Message p.2 ∈ outcome_messages)
           (writes (calls_since w (perform_all int_of_text ops w)))).
  { induction ops as [|[op env] ops IH]; intros u; cbn [perform_all].
    - rewrite calls_since_same. constructor.
    - rewrite calls_since_perform_step, writes_app. apply Forall_app. split.
      + apply perform_writes.
      + apply IH. }
  split; [apply Hwrites|].
  intros Hbroker.
  destruct (perform_all_appends int_of_text ops w) as (cs & ls & Hc & -> & _).
  apply Forall_app. split; [done|].
  apply Forall_accepted_writes.
  specialize (Hwrites w). unfold calls_since in Hwrites.
  rewrite Hc, drop_app_length in Hwrites.
  eapply Forall_impl; [apply Hwrites|]. by intros p [? _].
Qed.

(** ** Orders of different products *)

Lemma alter_swap (f g : Row.t → Row.t) (i j : Z) (m : gmap Z Row.t) :
  i ≠ j → alter f i (alter g j m) = alter g j (alter f i m).
Proof.
  intros Hij. apply map_eq. intros k.
  destruct (decide (i = k)) as [<-|Hik]; [|destruct (decide (j = k)) as [<-|Hjk]].
  - rewrite lookup_alter_eq, (lookup_alter_ne _ m j i) by done.
    by rewrite (lookup_alter_ne _ _ j i), lookup_alter_eq by done.
  - rewrite (lookup_alter_ne _ _ i j), !lookup_alter_eq by done.
    by rewrite (lookup_alter_ne _ _ i j) by done.
  - by rewrite !lookup_alter_ne by done.
Qed.

Lemma handleOrder_table event env w :
  inventories (handleOrder event env w).2 =
  match select_result env w (OrderCreatedEvent.ProductID event) with
  | Some quantity =>
      if (OrderCreatedEvent.Quantity event <=? quantity) && negb (exec_err env)
      then alter (decrement (OrderCreatedEvent.Quantity event))
             (OrderCreatedEvent.ProductID event) (inventories w)
      else inventories w
  | None => inventories w
  end.
Proof.
  by_path event env w; rewrite Hsel.
  - reflexivity.
  - by rewrite (proj2 (Z.leb_gt _ _) Hq).
  - by rewrite (proj2 (Z.leb_le _ _) Hq), Herr.
  - by rewrite (proj2 (Z.leb_le _ _) Hq), Herr.
Qed.

Lemma handleOrder_frame event env w p :
  p ≠ OrderCreatedEvent.ProductID event →
  inventories (handleOrder event env w).2 !! p = inventories w !! p.
Proof.
  intros Hp. rewrite handleOrder_table.
  destruct (select_result env w _) as [quantity|]; [|done].
  destruct (_ && _); [|done]. by rewrite lookup_alter_ne.
Qed.

Lemma select_result_frame event env env' w p :
  p ≠ OrderCreatedEvent.ProductID event →
  select_result env' (handleOrder event env w).2 p = select_result env' w p.
Proof. intros Hp. unfold select_result. by rewrite handleOrder_frame. Qed.

Lemma handleOrder_writes_same event env w u :
  select_result env w (OrderCreatedEvent.ProductID event)
  = select_result env u (OrderCreatedEvent.ProductID event) →
  writes (calls_since w (handleOrder event env w).2)
  = writes (calls_since u (handleOrder event env u).2).
Proof.
  intros Heq.
  by_path event env w; rewrite calls_since_app; rewrite Heq in Hsel.
  - rewrite (handleOrder_not_found _ _ _ Hsel). by since.
  - rewrite (handleOrder_not_enough _ _ _ _ Hsel Hq). by since.
  - rewrite (handleOrder_update_fails _ _ _ _ Hsel Hq Herr). by since.
  - rewrite (handleOrder_reserved _ _ _ _ Hsel Hq Herr). by since.
Qed.

(** X7.  Two orders of different products do not get in each other's way:
    processed in either order they leave the same table, and each gets the
    outcome it would get if it were processed alone. *)
Theorem orders_of_different_products_commute event1 event2 env1 env2 w :
  OrderCreatedEvent.ProductID event1 ≠ OrderCreatedEvent.ProductID event2 →
  let w1 := (iteration (Message (Encodes event1)) env1 w).2 in
  let w2 := (iteration (Message (Encodes event2)) env2 w).2 in
  let w12 := (iteration (Message (Encodes event2)) env2 w1).2 in
  let w21 := (iteration (Message (Encodes event1)) env1 w2).2 in
  inventories w12 = inventories w21
  ∧ writes (calls_since w1 w12) = writes (calls_since w w2)
  ∧ writes (calls_since w2 w21) = writes (calls_since w w1).
Proof.
  intros Hne w1 w2 w12 w21. subst w1 w2 w12 w21. rewrite !iteration_decoded.
  split; [|split].
  - rewrite (handleOrder_table event2 env2 (handleOrder event1 env1 w).2).
    rewrite (handleOrder_table event1 env1 (handleOrder event2 env2 w).2).
    rewrite !select_result_frame by done.
    rewrite (handleOrder_table event1 env1 w), (handleOrder_table event2 env2 w).
    destruct (select_result env1 w _) as [q1|], (select_result env2 w _) as [q2|];
      try done.
    destruct (_ && _), (_ && _); try done.
    by apply alter_swap.
  - apply handleOrder_writes_same. by apply select_result_frame.
  - apply handleOrder_writes_same. by apply select_result_frame.
Qed.

Lemma orders_of_different_products_commute_witness :
  let w := mkWorld {[ 1 := Row.mk 3 0; 2 := Row.mk 1 0 ]} [] [] [] in
  let w1 := (iteration (Message (Encodes (order 7 1 2))) no_faults w).2 in
  let w2 := (iteration (Message (Encodes (order 8 2 5))) no_faults w).2 in
  let w12 := (iteration (Message (Encodes (order 8 2 5))) no_faults w1).2 in
  let w21 := (iteration (Message (Encodes (order 7 1 2))) no_faults w2).2 in
  inventories w12 = inventories w21
  ∧ writes (calls_since w1 w12) = writes (calls_since w w2)
  ∧ writes (calls_since w2 w21) = writes (calls_since w w1).
Proof.
  apply (orders_of_different_products_commute (order 7 1 2) (order 8 2 5)
           no_faults no_faults).
  vm_compute. discriminate.
Defined.

(** ** Two consumers on different products *)

Lemma step_select_pending event env w :
  (step (BeforeSelect event) env w).1
  = match select_result env w (OrderCreatedEvent.ProductID event) with
    | Some quantity => BeforeCompare event quantity
    | None => Finished
    end.
Proof.
  unfold step, select_result. run_M.
  by destruct (if query_err env then _ else _).
Qed.

Lemma step_select_table event env w :
  inventories (step (BeforeSelect event) env w).2 = inventories w.
Proof.
  unfold step. run_M.
  destruct (if query_err env then _ else _); [done|].
  by destruct (write_err env).
Qed.

Lemma step_compare_pending event quantity env w :
  (step (BeforeCompare event quantity) env w).1 = Finished.
Proof. reflexivity. Qed.

Lemma step_compare_table event quantity env w :
  inventories (step (BeforeCompare event quantity) env w).2
  = if (OrderCreatedEvent.Quantity event <=? quantity) && negb (exec_err env)
    then alter (decrement (OrderCreatedEvent.Quantity event))
           (OrderCreatedEvent.ProductID event) (inventories w)
    else inventories w.
Proof.
  unfold step, reserve. run_M. rewrite Z.geb_leb.
  destruct (_ <=? _); cbn; [|by destruct (write_err env)].
  destruct (exec_err env); cbn; by destruct (write_err env).
Qed.

Lemma step_finished env w : step Finished env w = (Finished, w).
Proof. reflexivity. Qed.

Lemma select_result_table env w u p :
  inventories u = inventories w → select_result env u p = select_result env w p.
Proof. unfold select_result. by intros ->. Qed.

Lemma select_after_step env env' p pending w :
  match pending with
  | BeforeCompare event _ => p ≠ OrderCreatedEvent.ProductID event
  | _ => True
  end →
  select_result env' (step pending env w).2 p = select_result env' w p.
Proof.
  intros Hp. unfold select_result. destruct pending as [event|event quantity|].
  - by rewrite step_select_table.
  - rewrite step_compare_table. destruct (_ && _); [|done].
    by rewrite lookup_alter_ne.
  - reflexivity.
Qed.

Ltac race_free :=
  cbn [consumeOrderCreated]; rewrite ?iteration_decoded;
  rewrite ?(handleOrder_table _ _ (handleOrder _ _ _).2), ?select_result_frame by done;
  rewrite ?handleOrder_table;
  unfold interleave; cbn [lookup list_lookup insert list_insert];
  repeat first
    [ rewrite step_select_pending
    | rewrite step_compare_pending
    | rewrite step_finished
    | rewrite select_after_step by (cbn; done)
    | match goal with
      | E : select_result _ _ _ = _ |- _ => rewrite E
      end
    | match goal with
      | |- context [select_result ?env ?w ?p] =>
          is_var w; destruct (select_result env w p) eqn:?
      end
    | progress cbn [lookup list_lookup insert list_insert fst snd] ];
  repeat first [ rewrite step_compare_table | rewrite step_select_table ];
  repeat match goal with
  | |- context [?a && ?b] => destruct (a && b)
  end;
  first [ reflexivity | by apply alter_swap | symmetry; by apply alter_swap ].

(** X8.  The race of the two round trips is a matter of one product: when
    two consumers hold orders of different products, every order in which
    they can make their two round trips each ends with both consumers done
    and with the table that the one loop leaves when it processes the first
    order and then the second. *)
Theorem consumers_of_different_products_do_not_race event1 event2 env w schedule :
  OrderCreatedEvent.ProductID event1 ≠ OrderCreatedEvent.ProductID event2 →
  [0; 0; 1; 1]%nat ≡ₚ schedule →
  let r := interleave schedule env [BeforeSelect event1; BeforeSelect event2] w in
  r.1 = [Finished; Finished]
  ∧ inventories r.2
    = inventories (consumeOrderCreated
                     [(Message (Encodes event1), env); (Message (Encodes event2), env)] w).
Proof.
  intros Hne Hs. pose proof (not_eq_sym Hne) as Hne'. cbv zeta.
  apply permutations_Permutation in Hs. cbn in Hs.
  repeat (apply elem_of_cons in Hs as [->|Hs]); [..|by apply elem_of_nil in Hs].
  all: split; race_free.
Qed.

Lemma consumers_of_different_products_do_not_race_witness :
  let w := mkWorld {[ 1 := Row.mk 1 0; 2 := Row.mk 1 0 ]} [] [] [] in
  let r := interleave [1; 0; 1; 0]%nat no_faults
             [BeforeSelect (order 7 1 1); BeforeSelect (order 8 2 1)] w in
  r.1 = [Finished; Finished]
  ∧ inventories r.2
    = inventories (consumeOrderCreated
                     [(Message (Encodes (order 7 1 1)), no_faults);
                      (Message (Encodes (order 8 2 1)), no_faults)] w).
Proof.
  apply (consumers_of_different_products_do_not_race (order 7 1 1) (order 8 2 1)).
  - vm_compute. discriminate.
  - apply permutations_Permutation. cbn.
    repeat first [apply list_elem_of_here | apply list_elem_of_further].
Defined.

(** ** The handlers *)

Lemma createInventory_result request env w :
  let inv := Decode (decoded_body request) in
  let err := exec_err env
             || bool_decide (is_Some (inventories w !! Inventory.ProductID inv)) in
  createInventory request env w =
  (if err then Error "Insert failed" StatusBadRequest
   else mkResponse StatusCreated Empty,
   mkWorld (if err then inventories w
            else <[Inventory.ProductID inv :=
                     Row.mk (Inventory.Quantity inv) (now env)]> (inventories w))
     (broker w) (logged w)
     (calls w ++ [CallInsert (Inventory.ProductID inv) (Inventory.Quantity inv)
                    (now env) err])).
Proof.
  cbv zeta. unfold createInventory, insertInventory. run_M.
  by destruct (exec_err env || _).
Qed.

Lemma updateInventory_result int_of_text request env w :
  let inv := Decode (decoded_body request) in
  let target := int_of_text (product_id_var request) in
  let err := exec_err env || bool_decide (target = None) in
  updateInventory int_of_text request env w =
  (if err then Error "Update failed" StatusBadRequest
   else mkResponse StatusOK Empty,
   mkWorld (match target with
            | Some product_id =>
                if err then inventories w
                else alter (λ _, Row.mk (Inventory.Quantity inv) (now env))
                       product_id (inventories w)
            | None => inventories w
            end)
     (broker w) (logged w)
     (calls w ++ [CallUpdate (Inventory.Quantity inv) (now env) target err])).
Proof.
  cbv zeta. unfold updateInventory, updateQuantity. run_M.
  destruct (int_of_text (product_id_var request)); by destruct (exec_err env || _).
Qed.

Lemma getInventory_result int_of_text request env w product_id :
  int_of_text (product_id_var request) = Some product_id →
  getInventory int_of_text request env w =
  (match select_result env w product_id with
   | Some quantity => mkResponse StatusOK (AvailableQuantity (quantity >? 0) quantity)
   | None => Error "Product not found" StatusNotFound
   end,
   with_call (CallSelect product_id (select_result env w product_id)) w).
Proof.
  intros Htext. unfold getInventory, selectQuantityText, select_result.
  rewrite Htext. run_M.
  by destruct (if query_err env then _ else _).
Qed.

(** X9.  A GET answers 200 exactly when the store reads the path variable
    as a product, the table has a row for it and the SELECT comes back
    without an error; in every other case the answer is 404 "Product not
    found".  Either way the table, the broker and the log are left as they
    were. *)
Theorem getInventory_found_iff int_of_text request env w :
  let res := getInventory int_of_text request env w in
  (status res.1 = StatusOK ↔
     ∃ product_id r,
       int_of_text (product_id_var request) = Some product_id
       ∧ inventories w !! product_id = Some r
       ∧ query_err env = false)
  ∧ (status res.1 ≠ StatusOK → res.1 = Error "Product not found" StatusNotFound)
  ∧ inventories res.2 = inventories w
  ∧ broker res.2 = broker w
  ∧ logged res.2 = logged w.
Proof.
  cbv zeta.
  destruct (int_of_text (product_id_var request)) as [product_id|] eqn:Htext.
  - rewrite (getInventory_result _ _ _ _ _ Htext). cbn [fst snd].
    destruct (select_result env w product_id) as [quantity|] eqn:Hsel.
    + apply select_result_Some in Hsel as [Hquery (r & Hrow & _)].
      repeat split; try done. intros _. by exists product_id, r.
    + repeat split; try done.
      intros (p & r & [= <-] & Hrow & Hquery).
      by rewrite (select_result_found _ _ _ _ Hquery Hrow) in Hsel.
  - unfold getInventory, selectQuantityText. rewrite Htext. cbn.
    repeat split; try done. by intros (p & r & ? & _).
Qed.

(** X10.  What a POST answers and does: either 201 with an empty body, and
    the table has gained the row of the body, stamped with the time of the
    request, and nothing else has changed; or 400 "Insert failed", and the
    table is as it was.  An INSERT that comes back with an error always
    gives the second.  The broker and the log are not touched. *)
Theorem createInventory_outcome request env w :
  let inv := Decode (decoded_body request) in
  let res := createInventory request env w in
  ((res.1 = mkResponse StatusCreated Empty
    ∧ exec_err env = false
    ∧ inventories res.2
      = <[Inventory.ProductID inv := Row.mk (Inventory.Quantity inv) (now env)]>
          (inventories w))
   ∨ (res.1 = Error "Insert failed" StatusBadRequest
      ∧ inventories res.2 = inventories w))
  ∧ (exec_err env = true → res.1 = Error "Insert failed" StatusBadRequest)
  ∧ broker res.2 = broker w
  ∧ logged res.2 = logged w.
Proof.
  cbv zeta. rewrite createInventory_result. cbn [fst snd inventories broker logged].
  destruct (exec_err env); cbn [orb].
  - split; [by right|]. done.
  - destruct (bool_decide _); (split; [|done]); [by right|by left].
Qed.

(** X11.  A row that a POST has created is what a GET for that product
    then finds: when the POST is answered 201 and the store reads the path
    variable of the GET as the [product_id] of the body, the GET answers
    200 with the quantity of the body, and [available] says whether that
    quantity is above 0. *)
Theorem created_then_found int_of_text post get env env' w :
  status (createInventory post env w).1 = StatusCreated →
  int_of_text (product_id_var get)
    = Some (Inventory.ProductID (Decode (decoded_body post))) →
  query_err env' = false →
  (getInventory int_of_text get env' (createInventory post env w).2).1
  = mkResponse StatusOK
      (AvailableQuantity (Inventory.Quantity (Decode (decoded_body post)) >? 0)
         (Inventory.Quantity (Decode (decoded_body post)))).
Proof.
  intros Hcreated Htext Hquery.
  rewrite (getInventory_result _ _ _ _ _ Htext).
  revert Hcreated. rewrite createInventory_result. cbn [fst snd].
  destruct (exec_err env || _); [discriminate|]. intros _.
  unfold select_result. rewrite Hquery. cbn [inventories].
  by rewrite lookup_insert_eq.
Qed.

Lemma created_then_found_witness :
  (getInventory decimal (mkRequest "42" None) no_faults
     (createInventory (mkRequest "" (Some (Inventory.mk 42 10))) no_faults empty_world).2).1
  = mkResponse StatusOK
      (AvailableQuantity
         (Inventory.Quantity (Decode (Some (Inventory.mk 42 10))) >? 0)
         (Inventory.Quantity (Decode (Some (Inventory.mk 42 10))))).
Proof.
  apply (created_then_found decimal (mkRequest "" (Some (Inventory.mk 42 10)))
           (mkRequest "42" None) no_faults no_faults empty_world).
  - vm_compute. reflexivity.
  - vm_compute. reflexivity.
  - reflexivity.
Defined.

(** X12.  A PUT for a product that has no row is answered 200 with an
    empty body, like one that updates a row, and changes nothing: the
    UPDATE matches no row and that is no error. *)
Theorem update_of_missing_product_is_silent int_of_text request env w product_id :
  int_of_text (product_id_var request) = Some product_id →
  inventories w !! product_id = None →
  exec_err env = false →
  (updateInventory int_of_text request env w).1 = mkResponse StatusOK Empty
  ∧ inventories (updateInventory int_of_text request env w).2 = inventories w.
Proof.
  intros Htext Hrow Hexec. rewrite updateInventory_result. cbv zeta.
  rewrite Htext, Hexec. cbn. split; [done|].
  apply alter_id. intros r Hr. congruence.
Qed.

Lemma update_of_missing_product_is_silent_witness :
  (updateInventory decimal (mkRequest "999" (Some (Inventory.mk 999 5))) no_faults
     (stocked 42 10)).1
  = mkResponse StatusOK Empty
  ∧ inventories
      (updateInventory decimal (mkRequest "999" (Some (Inventory.mk 999 5))) no_faults
         (stocked 42 10)).2
    = inventories (stocked 42 10).
Proof.
  apply (update_of_missing_product_is_silent decimal _ no_faults (stocked 42 10) 999).
  - vm_compute. reflexivity.
  - vm_compute. reflexivity.
  - reflexivity.
Defined.

(** X13.  A PUT for a product that has a row sets that row, and no other,
    to the quantity of the body, stamped with the time of the request; the
    product is the one of the path, whatever [product_id] the body
    carries.  A GET for the product then answers that quantity. *)
Theorem updated_then_found int_of_text put get env env' w product_id r :
  int_of_text (product_id_var put) = Some product_id →
  int_of_text (product_id_var get) = Some product_id →
  inventories w !! product_id = Some r →
  exec_err env = false →
  query_err env' = false →
  let quantity := Inventory.Quantity (Decode (decoded_body put)) in
  let res := updateInventory int_of_text put env w in
  res.1 = mkResponse StatusOK Empty
  ∧ inventories res.2 !! product_id = Some (Row.mk quantity (now env))
  ∧ (∀ p, p ≠ product_id → inventories res.2 !! p = inventories w !! p)
  ∧ (getInventory int_of_text get env' res.2).1
    = mkResponse StatusOK (AvailableQuantity (quantity >? 0) quantity).
Proof.
  intros Hput Hget Hrow Hexec Hquery. cbv zeta.
  rewrite (getInventory_result _ _ _ _ _ Hget).
  rewrite updateInventory_result. cbv zeta.
  rewrite Hput, Hexec. cbn [orb fst snd inventories].
  rewrite bool_decide_eq_false_2 by done.
  split; [done|]. split; [by rewrite lookup_alter_eq, Hrow|].
  split; [intros p Hp; by rewrite lookup_alter_ne|].
  unfold select_result. rewrite Hquery. cbn [inventories].
  by rewrite lookup_alter_eq, Hrow.
Qed.

Lemma updated_then_found_witness :
  let put := mkRequest "42" (Some (Inventory.mk 7 3)) in
  let quantity := Inventory.Quantity (Decode (decoded_body put)) in
  let res := updateInventory decimal put no_faults (stocked 42 10) in
  res.1 = mkResponse StatusOK Empty
  ∧ inventories res.2 !! 42 = Some (Row.mk quantity (now no_faults))
  ∧ (∀ p, p ≠ 42 → inventories res.2 !! p = inventories (stocked 42 10) !! p)
  ∧ (getInventory decimal (mkRequest "42" None) no_faults res.2).1
    = mkResponse StatusOK (AvailableQuantity (quantity >? 0) quantity).
Proof.
  apply (updated_then_found decimal (mkRequest "42" (Some (Inventory.mk 7 3)))
           (mkRequest "42" None) no_faults no_faults (stocked 42 10) 42 (Row.mk 10 0)).
  - vm_compute. reflexivity.
  - vm_compute. reflexivity.
  - vm_compute. reflexivity.
  - reflexivity.
  - reflexivity.
Defined.

(** X14.  The error of [Decode] is dropped, so a body that cannot be read
    counts as product 0 with quantity 0: a PUT with such a body sets the
    row of the product of its path to quantity 0 and answers 200, and a
    POST with such a body, when product 0 has no row, creates product 0
    with quantity 0 and answers 201. *)
Theorem unreadable_body_counts_as_zero int_of_text request env w :
  decoded_body request = None →
  exec_err env = false →
  (∀ product_id r,
     int_of_text (product_id_var request) = Some product_id →
     inventories w !! product_id = Some r →
     (updateInventory int_of_text request env w).1 = mkResponse StatusOK Empty
     ∧ inventories (updateInventory int_of_text request env w).2 !! product_id
       = Some (Row.mk 0 (now env)))
  ∧ (inventories w !! 0 = None →
     (createInventory request env w).1 = mkResponse StatusCreated Empty
     ∧ inventories (createInventory request env w).2 !! 0 = Some (Row.mk 0 (now env))).
Proof.
  intros Hbody Hexec. split.
  - intros product_id r Htext Hrow. rewrite updateInventory_result. cbv zeta.
    rewrite Htext, Hexec, Hbody. cbn [orb fst snd inventories Decode default].
    rewrite bool_decide_eq_false_2 by done.
    split; [done|]. by rewrite lookup_alter_eq, Hrow.
  - intros Hrow. rewrite createInventory_result. cbv zeta.
    rewrite Hexec, Hbody. cbn [orb fst snd inventories Decode default Inventory.ProductID
                                 Inventory.Quantity].
    rewrite Hrow, bool_decide_eq_false_2 by (by intros [? ?]).
    split; [done|]. by rewrite lookup_insert_eq.
Qed.

Lemma unreadable_body_counts_as_zero_witness :
  let request := mkRequest "42" None in
  let w := stocked 42 10 in
  (∀ product_id r,
     decimal (product_id_var request) = Some product_id →
     inventories w !! product_id = Some r →
     (updateInventory decimal request no_faults w).1 = mkResponse StatusOK Empty
     ∧ inventories (updateInventory decimal request no_faults w).2 !! product_id
       = Some (Row.mk 0 (now no_faults)))
  ∧ (inventories w !! 0 = None →
     (createInventory request no_faults w).1 = mkResponse StatusCreated Empty
     ∧ inventories (createInventory request no_faults w).2 !! 0
       = Some (Row.mk 0 (now no_faults))).
Proof.
  apply (unreadable_body_counts_as_zero decimal (mkRequest "42" None) no_faults
           (stocked 42 10)).
  - reflexivity.
  - reflexivity.
Defined.

Lemma alter_set_twice (a b : Row.t) (i : Z) (m : gmap Z Row.t) :
  alter (λ _, b) i (alter (λ _, a) i m) = alter (λ _, b) i m.
Proof.
  apply map_eq. intros k. destruct (decide (i = k)) as [<-|Hne].
  - rewrite !lookup_alter_eq. by destruct (m !! i).
  - by rewrite !lookup_alter_ne.
Qed.

(** X15.  The last PUT wins: after two PUTs for one product that both go
    through, the table is what the second alone would have left. *)
Theorem last_update_wins int_of_text first second env1 env2 w :
  product_id_var first = product_id_var second →
  exec_err env1 = false →
  exec_err env2 = false →
  let w1 := (updateInventory int_of_text first env1 w).2 in
  inventories (updateInventory int_of_text second env2 w1).2
  = inventories (updateInventory int_of_text second env2 w).2.
Proof.
  intros Hpath Hexec1 Hexec2. cbv zeta.
  rewrite !updateInventory_result. cbv zeta. cbn [snd inventories].
  rewrite Hpath, Hexec1, Hexec2. cbn [orb].
  destruct (int_of_text (product_id_var second)) as [product_id|]; [|done].
  rewrite bool_decide_eq_false_2 by done. apply alter_set_twice.
Qed.

Lemma last_update_wins_witness :
  let first := mkRequest "42" (Some (Inventory.mk 42 3)) in
  let second := mkRequest "42" (Some (Inventory.mk 42 8)) in
  let w1 := (updateInventory decimal first no_faults (stocked 42 10)).2 in
  inventories (updateInventory decimal second no_faults w1).2
  = inventories (updateInventory decimal second no_faults (stocked 42 10)).2.
Proof.
  apply (last_update_wins decimal (mkRequest "42" (Some (Inventory.mk 42 3)))
           (mkRequest "42" (Some (Inventory.mk 42 8))) no_faults no_faults).
  - reflexivity.
  - reflexivity.
  - reflexivity.
Defined.

(** ** cors.go *)

Lemma enableCORS_lookup h key :
  enableCORS h !! key =
  if decide (key = "Access-Control-Allow-Headers") then Some "Content-Type"
  else if decide (key = "Access-Control-Allow-Methods") then Some "GET, POST, PUT, OPTIONS"
  else if decide (key = "Access-Control-Allow-Origin") then Some "*"
  else h !! key.
Proof.
  unfold enableCORS.
  repeat (case_decide; [subst key|]).
  - by rewrite lookup_insert_eq.
  - rewrite lookup_insert_ne by done. by rewrite lookup_insert_eq.
  - rewrite !lookup_insert_ne by done. by rewrite lookup_insert_eq.
  - by rewrite !lookup_insert_ne by done.
Qed.


(** X17.  The middleware changes nothing but the headers.  A request of
    method OPTIONS is answered by the middleware itself with 204 and an
    empty body: the handler behind it is not run, and the table, the
    broker, the log and the trace of calls are as they were.  For every
    other method the status, the body and the effects on the world are
    those of the handler behind it. *)
Theorem middleware_only_adds_headers next method h request env w :
  let res := corsMiddleware next method h request env w in
  (method = MethodOptions →
   res.1.2 = mkResponse StatusNoContent Empty ∧ res.2 = w)
  ∧ (method ≠ MethodOptions →
     res.1.2 = (next request env w).1 ∧ res.2 = (next request env w).2).
Proof.
  cbv zeta. unfold corsMiddleware. split; intros Hm.
  - by rewrite bool_decide_eq_true_2.
  - rewrite bool_decide_eq_false_2 by done.
    by unfold mbind, M_bind, mret, M_ret.
Qed.

(** A preflight for the update route leaves the stock alone. *)
Example options_does_not_update :
  corsMiddleware (updateInventory decimal) "OPTIONS" ∅
    (mkRequest "42" (Some (Inventory.mk 42 0))) no_faults (stocked 42 10)
  = (enableCORS ∅, mkResponse StatusNoContent Empty, stocked 42 10).
Proof. reflexivity. Qed.

(** X18.  [enableCORS] can be applied again without effect, so a response
    that went through it twice carries the same headers as one that went
    through it once. *)
Theorem enableCORS_idempotent h : enableCORS (enableCORS h) = enableCORS h.
Proof.
  apply map_eq. intros key. rewrite !enableCORS_lookup.
  by repeat case_decide.
Qed.
